(** * Tourism planner: agents and orchestrator

    A shallow embedding of [config.py], [core_agents.py] and
    [orchestrator.py], and the properties of the orchestration pipeline;
    of [app.py] and [ui_components.py], the tabs, the map markers and
    the encyclopedia link that are computed from a result bundle.

    Conventions of the embedding.
    - A Python [str] is a Rocq [string]; a character is the [ascii] with
      the same code point, so the character predicates below are the
      Python ones on code points below 256.  In the fixed message
      literals, characters beyond that range are kept as the bytes the
      source file holds.
    - A Python [float] is a binary64 [float]; only truth value and
      copying are ever applied to one.
    - [try: ... except Exception] is the [result] monad with
      [try_except]; what is outside the repository (the HTTP services,
      the chat completion endpoint, the builtin [float()]) is a field of
      the [world] record.
    - Calls that leave the process are recorded in a trace. *)

From Stdlib Require Import ZArith String Ascii List PrimFloat.
From Stdlib Require Import DecimalString DecimalZ DecimalPos Sorting.Sorted.
From stdpp Require Import base option gmap strings list.

Local Open Scope string_scope.
Local Open Scope Z_scope.

(** ** Python strings *)

Module Py.

Definition ord (c : ascii) : nat := nat_of_ascii c.

Definition between (lo hi n : nat) : bool := (lo <=? n)%nat && (n <=? hi)%nat.

(** [str.isspace] for one character: tab to carriage return, the
    separators 0x1c-0x1f, space, NEL and the no-break space. *)
Definition isspace (c : ascii) : bool :=
  between 9 13 (ord c) || between 28 32 (ord c)
  || (ord c =? 133)%nat || (ord c =? 160)%nat.

(** [str.isupper] for one character. *)
Definition isupper (c : ascii) : bool :=
  between 65 90 (ord c) || between 192 214 (ord c) || between 216 222 (ord c).

Definition lower_char (c : ascii) : ascii :=
  if isupper c then ascii_of_nat (ord c + 32) else c.

(** [s.lower()] *)
Fixpoint lower (s : string) : string :=
  match s with
  | EmptyString => EmptyString
  | String c s' => String (lower_char c) (lower s')
  end.

(** Truth value of a string: non-empty. *)
Definition truthy (s : string) : bool :=
  match s with EmptyString => false | String _ _ => true end.

(** Truth value of [d.get(k)] for a string-valued mapping. *)
Definition truthy_opt (o : option string) : bool :=
  match o with Some s => truthy s | None => false end.

Fixpoint lstrip_by (p : ascii -> bool) (s : string) : string :=
  match s with
  | EmptyString => EmptyString
  | String c s' => if p c then lstrip_by p s' else s
  end.

Fixpoint rstrip_by (p : ascii -> bool) (s : string) : string :=
  match s with
  | EmptyString => EmptyString
  | String c s' =>
      match rstrip_by p s' with
      | EmptyString => if p c then EmptyString else String c EmptyString
      | r => String c r
      end
  end.

Definition strip_by (p : ascii -> bool) (s : string) : string :=
  rstrip_by p (lstrip_by p s).

(** [s.strip()] *)
Definition strip (s : string) : string := strip_by isspace s.

(** [s.strip(ch)] for a one-character argument. *)
Definition strip_char (ch : ascii) (s : string) : string :=
  strip_by (fun c => bool_decide (c = ch)) s.

(** [s.split()]: the maximal runs of non-space characters. *)
Fixpoint split (s : string) : list string :=
  match s with
  | EmptyString => []
  | String c s' =>
      if isspace c then split s'
      else match s' with
           | EmptyString => [String c EmptyString]
           | String c' _ =>
               if isspace c' then String c EmptyString :: split s'
               else match split s' with
                    | w :: ws => String c w :: ws
                    | [] => [String c EmptyString]
                    end
           end
  end.

(** [sep.join(l)] *)
Fixpoint join (sep : string) (l : list string) : string :=
  match l with
  | [] => EmptyString
  | [w] => w
  | w :: ws => w ++ sep ++ join sep ws
  end.

(** [str(n)] for an [int]. *)
Definition str_int (n : Z) : string := NilZero.string_of_int (Z.to_int n).

(** [int(s)], where it is defined. *)
Definition int_str (s : string) : option Z :=
  match NilZero.int_of_string s with
  | Some d => Some (Z.of_int d)
  | None => None
  end.

(** [sub in s] *)
Definition contains (sub s : string) : Prop :=
  exists before after, s = before ++ sub ++ after.

(** Truth value of a float: anything but zero. *)
Definition truthy_float (x : float) : bool := negb (PrimFloat.eqb x 0%float).

Definition truthy_optfloat (o : option float) : bool :=
  match o with Some x => truthy_float x | None => false end.

Definition newline : string := String (ascii_of_nat 10) EmptyString.

End Py.

(** ** Exceptions *)

Inductive exn : Type :=
| Timeout
| RequestException
| JSONDecodeError
| KeyError (key : string)
| ValueError
| OtherException.

Inductive result (A : Type) : Type :=
| Ok (a : A)
| Raise (e : exn).
Arguments Ok {A} a.
Arguments Raise {A} e.

#[export] Instance result_ret : MRet result := fun A a => Ok a.
#[export] Instance result_bind : MBind result := fun A B f m =>
  match m with
  | Ok a => f a
  | Raise e => Raise e
  end.

(** [try: body  except Exception as e: handler e] *)
Definition try_except {A : Type} (body : result A) (handler : exn -> A) : A :=
  match body with
  | Ok a => a
  | Raise e => handler e
  end.

(** [d[key]] on an optional field. *)
Definition getitem {A : Type} (key : string) (field : option A) : result A :=
  match field with
  | Some a => Ok a
  | None => Raise (KeyError key)
  end.

(** ** config.py *)

Definition DEFAULT_SEARCH_RADIUS : Z := 30000.
Definition DEFAULT_MAX_PLACES : Z := 8.
Definition DEFAULT_FORECAST_DAYS : Z := 7.

Definition WEATHER_CODES_items : list (Z * string) :=
  [ (0, "Clear sky ☀️"); (1, "Mainly clear 🌤️"); (2, "Partly cloudy ⛅");
    (3, "Overcast ☁️"); (45, "Foggy 🌫️"); (48, "Depositing rime fog 🌫️");
    (51, "Light drizzle 🌦️"); (53, "Moderate drizzle 🌦️");
    (55, "Dense drizzle 🌧️"); (56, "Light freezing drizzle 🌨️");
    (57, "Dense freezing drizzle 🌨️"); (61, "Slight rain 🌧️");
    (63, "Moderate rain 🌧️"); (65, "Heavy rain ⛈️");
    (66, "Light freezing rain 🌨️"); (67, "Heavy freezing rain 🌨️");
    (71, "Slight snow 🌨️"); (73, "Moderate snow ❄️"); (75, "Heavy snow ❄️");
    (77, "Snow grains 🌨️"); (80, "Slight rain showers 🌦️");
    (81, "Moderate rain showers 🌧️"); (82, "Violent rain showers ⛈️");
    (85, "Slight snow showers 🌨️"); (86, "Heavy snow showers ❄️");
    (95, "Thunderstorm ⛈️"); (96, "Thunderstorm with slight hail ⛈️");
    (99, "Thunderstorm with heavy hail ⛈️") ].

Definition WEATHER_CODES : gmap Z string := list_to_map WEATHER_CODES_items.

(** ** JSON payloads *)

#[local] Unset Elimination Schemes.
Inductive json : Type :=
| JNull
| JBool (b : bool)
| JNum (x : float)
| JStr (s : string)
| JArr (items : list json)
| JObj (fields : list (string * json)).
#[local] Set Elimination Schemes.

(** Truth value of the Python object a JSON document decodes to;
    [JNull] decodes to [None]. *)
Definition json_truthy (j : json) : bool :=
  match j with
  | JNull => false
  | JBool b => b
  | JNum x => Py.truthy_float x
  | JStr s => Py.truthy s
  | JArr items => match items with [] => false | _ => true end
  | JObj fields => match fields with [] => false | _ => true end
  end.

(** ** core_agents.py: GeocodingAgent *)

(** One candidate of the search endpoint's reply; a field is [None]
    when the object lacks the key. *)
Record candidate : Type := {
  cand_type : option string;
  cand_lat : option string;
  cand_lon : option string;
  cand_display_name : option string
}.

Record geo : Type := {
  geo_lat : float;
  geo_lon : float;
  geo_display_name : string
}.

Definition PLACE_TYPES : list string :=
  ["city"; "town"; "village"; "municipality"; "administrative"].

(** [item.get('type') in [...]] *)
Definition is_place_type (item : candidate) : bool :=
  match cand_type item with
  | Some t => bool_decide (t ∈ PLACE_TYPES)
  | None => false
  end.

(** [float(s)]: the builtin raises [ValueError] where it is undefined. *)
Definition to_float (pyfloat : string -> option float) (s : string) : result float :=
  match pyfloat s with
  | Some x => Ok x
  | None => Raise ValueError
  end.

(** The dictionary built from one candidate. *)
Definition geo_of (pyfloat : string -> option float) (item : candidate) : result geo :=
  lat_text ← getitem "lat" (cand_lat item);
  lat ← to_float pyfloat lat_text;
  lon_text ← getitem "lon" (cand_lon item);
  lon ← to_float pyfloat lon_text;
  display_name ← getitem "display_name" (cand_display_name item);
  mret {| geo_lat := lat; geo_lon := lon; geo_display_name := display_name |}.

(** The [for item in data] loop: returns from the function at the first
    candidate of a place type. *)
Fixpoint prefer_place (pyfloat : string -> option float) (data : list candidate)
  : result (option geo) :=
  match data with
  | [] => Ok None
  | item :: rest =>
      if is_place_type item
      then g ← geo_of pyfloat item; mret (Some g)
      else prefer_place pyfloat rest
  end.

(** The body of the [try] block of [get_coordinates]; [response] is
    what the request for [place_name] gives: the decoded array of up to
    five candidates, or the exception of the request or the decoding. *)
Definition get_coordinates_body (pyfloat : string -> option float)
  (response : result (list candidate)) : result (option geo) :=
  data ← response;
  match data with
  | [] => Ok None
  | first :: _ =>
      found ← prefer_place pyfloat data;
      match found with
      | Some g => Ok (Some g)
      | None => g ← geo_of pyfloat first; mret (Some g)
      end
  end.

Definition get_coordinates (pyfloat : string -> option float)
  (response : result (list candidate)) : option geo :=
  try_except (get_coordinates_body pyfloat response)
    (fun e =>
       match e with
       | Timeout => None
       | RequestException => None
       | _ => None
       end).

(** ** core_agents.py: WeatherAgent *)

(** [get_weather]: the decoded reply to the forecast request, or
    [None] (here [JNull]). *)
Definition get_weather (response : result json) : json :=
  try_except (data ← response; mret data)
    (fun e =>
       match e with
       | Timeout => JNull
       | RequestException => JNull
       | _ => JNull
       end).

(** [WEATHER_CODES.get(weather_code, f"Unknown ({weather_code})")] *)
Definition get_weather_description (weather_code : Z) : string :=
  default ("Unknown (" ++ Py.str_int weather_code ++ ")") (WEATHER_CODES !! weather_code).

(** ** core_agents.py: PlacesAgent *)

(** One element of the map-data reply.  [el_tags] and [el_center] are
    [None] when the key is missing; a centre is the mapping it is. *)
Record element : Type := {
  el_tags : option (gmap string string);
  el_lat : option float;
  el_lon : option float;
  el_center : option (gmap string float)
}.

Record place : Type := {
  p_name : string;
  p_type : string;
  p_tags : gmap string string;
  p_address : string;
  p_website : string;
  p_wikipedia : string;
  p_lat : option float;
  p_lon : option float
}.

(** [element.get('tags', {})] *)
Definition tags_of (e : element) : gmap string string := default ∅ (el_tags e).

(** Truth value of [element.get('center')]: a non-empty mapping. *)
Definition center_truthy (e : element) : bool :=
  match el_center e with
  | Some c => negb (bool_decide (c = ∅))
  | None => false
  end.

(** The pair [lat_coord, lon_coord] after the centre substitution. *)
Definition coords_of (e : element) : option float * option float :=
  if negb (Py.truthy_optfloat (el_lat e)) && center_truthy e
  then (default ∅ (el_center e) !! "lat", default ∅ (el_center e) !! "lon")
  else (el_lat e, el_lon e).

(** [a or b or c or d.get('amenity', 'attraction')] *)
Definition type_of (tags : gmap string string) : string :=
  if Py.truthy_opt (tags !! "tourism") then default "" (tags !! "tourism")
  else if Py.truthy_opt (tags !! "historic") then default "" (tags !! "historic")
  else if Py.truthy_opt (tags !! "leisure") then default "" (tags !! "leisure")
  else default "attraction" (tags !! "amenity").

Definition place_info (name : string) (e : element) : place :=
  {| p_name := name;
     p_type := type_of (tags_of e);
     p_tags := tags_of e;
     p_address := default "" (tags_of e !! "addr:street");
     p_website := default "" (tags_of e !! "website");
     p_wikipedia := default "" (tags_of e !! "wikipedia");
     p_lat := fst (coords_of e);
     p_lon := snd (coords_of e) |}.

(** The loop over the elements, with its two accumulators. *)
Fixpoint collect (elements : list element) (places : list place)
  (seen_names : gset string) : list place :=
  match elements with
  | [] => places
  | e :: rest =>
      match tags_of e !! "name" with
      | Some name =>
          if Py.truthy name && negb (bool_decide (name ∈ seen_names))
          then collect rest (places ++ [place_info name e]) (seen_names ∪ {[name]})
          else collect rest places seen_names
      | None => collect rest places seen_names
      end
  end.

(** The tuple [rank] returns. *)
Definition rank_key : Type := (nat * nat * nat * nat * nat)%type.

Definition rank (p : place) : rank_key :=
  let tags := p_tags p in
  ( if Py.truthy_opt (tags !! "wikipedia") || Py.truthy_opt (tags !! "website")
    then 0%nat else 1%nat,
    if bool_decide (tags !! "tourism" ∈
                      [Some "museum"; Some "gallery"; Some "attraction"; Some "viewpoint"])
    then 0%nat else 1%nat,
    if Py.truthy_opt (tags !! "historic") then 0%nat else 1%nat,
    if bool_decide (tags !! "leisure" ∈ [Some "park"; Some "garden"])
    then 0%nat else 1%nat,
    String.length (p_name p) ).

(** Tuple comparison [a < b]: lexicographic. *)
Definition key_lt (a b : rank_key) : bool :=
  let '(a1, a2, a3, a4, a5) := a in
  let '(b1, b2, b3, b4, b5) := b in
  (a1 <? b1)%nat || (a1 =? b1)%nat &&
  ((a2 <? b2)%nat || (a2 =? b2)%nat &&
   ((a3 <? b3)%nat || (a3 =? b3)%nat &&
    ((a4 <? b4)%nat || (a4 =? b4)%nat && (a5 <? b5)%nat))).

(** [sorted(l, key=key)]: the stable sort; an element goes in front
    of the first element whose key is not less than its own. *)
Fixpoint insert_sorted {A : Type} (key : A -> rank_key) (x : A) (l : list A) : list A :=
  match l with
  | [] => [x]
  | y :: l' =>
      if key_lt (key y) (key x) then y :: insert_sorted key x l'
      else x :: l
  end.

Fixpoint sorted {A : Type} (key : A -> rank_key) (l : list A) : list A :=
  match l with
  | [] => []
  | x :: l' => insert_sorted key x (sorted key l')
  end.

(** [l[:n]] for an [int] bound: a negative bound counts from the end. *)
Definition slice_to {A : Type} (n : Z) (l : list A) : list A :=
  if 0 <=? n then take (Z.to_nat n) l
  else take (length l - Z.to_nat (- n)) l.

(** The body of the [try] block of [get_tourist_places]; [response]
    is what the query built from the coordinates, the radius and
    [limit * 5] gives: the decoded [data.get('elements')], or the
    exception of the request or the decoding. *)
Definition get_tourist_places_body (limit : Z)
  (response : result (option (list element))) : result (list place) :=
  data ← response;
  let places := collect (default [] data) [] ∅ in
  mret (if limit <? Z.of_nat (length places)
        then slice_to limit (sorted rank places)
        else places).

Definition get_tourist_places (limit : Z)
  (response : result (option (list element))) : list place :=
  try_except (get_tourist_places_body limit response)
    (fun e =>
       match e with
       | Timeout => []
       | RequestException => []
       | _ => []
       end).

(** ** core_agents.py: TravelInsightsAgent *)

Definition TIPS_UNAVAILABLE : string := "Unable to generate travel tips at this time.".
Definition ITINERARY_UNAVAILABLE : string := "Unable to generate itinerary at this time.".

(** [completion] is the outcome of the [try] block: the prompt is
    built, the completion requested, its text taken. *)
Definition get_travel_tips (completion : result string) : string :=
  try_except (text ← completion; mret text) (fun _ => TIPS_UNAVAILABLE).

Definition get_itinerary (completion : result string) : string :=
  try_except (text ← completion; mret text) (fun _ => ITINERARY_UNAVAILABLE).

(** ** The regular expressions of [extract_place_name]

    A backtracking matcher for the fragment the four patterns use:
    literals, character classes, greedy and lazy repetition of a class,
    concatenation, ordered alternation, [^], [$] and one capturing
    group, all under [re.IGNORECASE]. *)

Module Re.

Inductive regex : Type :=
| Lit (text : string)
| Class (p : ascii -> bool)
| Star (greedy : bool) (p : ascii -> bool)
| Cat (r1 r2 : regex)
| Alt (r1 r2 : regex)
| Bol
| Eol
| Group (r : regex).

(** [c+] and [c+?] *)
Definition Plus (greedy : bool) (p : ascii -> bool) : regex :=
  Cat (Class p) (Star greedy p).

(** A literal character matches without regard to case. *)
Definition ieq (a b : ascii) : bool :=
  bool_decide (Py.lower_char a = Py.lower_char b).

(** [[A-Z]] and [[a-zA-Z]] under IGNORECASE. *)
Definition letter (c : ascii) : bool :=
  Py.between 65 90 (Py.ord c) || Py.between 97 122 (Py.ord c).

(** [[a-zA-Z\s]] *)
Definition letter_or_space (c : ascii) : bool := letter c || Py.isspace c.

(** [.] *)
Definition dot (c : ascii) : bool := negb (Py.ord c =? 10)%nat.

(** The text left after a literal, if the subject starts with it. *)
Fixpoint lit_match (text s : string) : option string :=
  match text, s with
  | EmptyString, _ => Some s
  | String a text', String c s' => if ieq a c then lit_match text' s' else None
  | String _ _, EmptyString => None
  end.

(** [c*]: the longest run first, giving characters back one by one. *)
Fixpoint star_greedy {R : Type} (p : ascii -> bool) (s : string)
  (k : string -> option R) : option R :=
  match s with
  | String c s' =>
      if p c
      then match star_greedy p s' k with
           | Some x => Some x
           | None => k s
           end
      else k s
  | EmptyString => k s
  end.

(** [c*?]: the shortest run first, taking characters one by one. *)
Fixpoint star_lazy {R : Type} (p : ascii -> bool) (s : string)
  (k : string -> option R) : option R :=
  match k s with
  | Some x => Some x
  | None =>
      match s with
      | String c s' => if p c then star_lazy p s' k else None
      | EmptyString => None
      end
  end.

(** The first [n] characters of [s]. *)
Fixpoint prefix (n : nat) (s : string) : string :=
  match n, s with
  | S n', String c s' => String c (prefix n' s')
  | _, _ => EmptyString
  end.

(** [rmatch n0 r s cap k]: match [r] at the front of [s], then continue
    with [k] on the rest; [n0] is the length of the whole subject, [cap]
    what group 1 holds so far. *)
Fixpoint rmatch {R : Type} (n0 : nat) (r : regex) (s : string) (cap : option string)
  (k : string -> option string -> option R) : option R :=
  match r with
  | Lit text =>
      match lit_match text s with
      | Some s' => k s' cap
      | None => None
      end
  | Class p =>
      match s with
      | String c s' => if p c then k s' cap else None
      | EmptyString => None
      end
  | Star greedy p =>
      if greedy then star_greedy p s (fun s' => k s' cap)
      else star_lazy p s (fun s' => k s' cap)
  | Cat r1 r2 => rmatch n0 r1 s cap (fun s1 cap1 => rmatch n0 r2 s1 cap1 k)
  | Alt r1 r2 =>
      match rmatch n0 r1 s cap k with
      | Some x => Some x
      | None => rmatch n0 r2 s cap k
      end
  | Bol => if (String.length s =? n0)%nat then k s cap else None
  | Eol =>
      match s with
      | EmptyString => k s cap
      | String c EmptyString => if (Py.ord c =? 10)%nat then k s cap else None
      | _ => None
      end
  | Group r1 =>
      rmatch n0 r1 s cap
        (fun s1 _ => k s1 (Some (prefix (String.length s - String.length s1) s)))
  end.

(** [re.search]: the first position at which the pattern matches;
    the value is [match.group(1)]. *)
Fixpoint search_from (n0 : nat) (r : regex) (s : string) : option (option string) :=
  match rmatch n0 r s None (fun _ cap => Some cap) with
  | Some m => Some m
  | None =>
      match s with
      | EmptyString => None
      | String _ s' => search_from n0 r s'
      end
  end.

Definition search (r : regex) (s : string) : option (option string) :=
  search_from (String.length s) r s.

End Re.

(** ** orchestrator.py *)

Import Re.

(** [([A-Z][a-zA-Z\s]+?)] *)
Definition NAME : regex := Group (Cat (Class letter) (Plus false letter_or_space)).

Definition one_of (chars : list ascii) (c : ascii) : bool := bool_decide (c ∈ chars).

Definition comma : ascii := ascii_of_nat 44.
Definition full_stop : ascii := ascii_of_nat 46.
Definition question_mark : ascii := ascii_of_nat 63.

(** [(?:going to|visit|plan.*trip to|travel to|in)\s+([A-Z][a-zA-Z\s]+?)(?:\s*[,\.]|$|\s+(?:let|what|and|for))] *)
Definition PATTERN_1 : regex :=
  Cat (Alt (Lit "going to")
      (Alt (Lit "visit")
      (Alt (Cat (Lit "plan") (Cat (Star true dot) (Lit "trip to")))
      (Alt (Lit "travel to") (Lit "in")))))
 (Cat (Plus true Py.isspace)
 (Cat NAME
      (Alt (Cat (Star true Py.isspace) (Class (one_of [comma; full_stop])))
      (Alt Eol
           (Cat (Plus true Py.isspace)
                (Alt (Lit "let") (Alt (Lit "what") (Alt (Lit "and") (Lit "for"))))))))).

(** [weather in\s+([A-Z][a-zA-Z\s]+?)(?:\s*[,\.\?]|$)] *)
Definition PATTERN_2 : regex :=
  Cat (Lit "weather in")
 (Cat (Plus true Py.isspace)
 (Cat NAME
      (Alt (Cat (Star true Py.isspace) (Class (one_of [comma; full_stop; question_mark])))
           Eol))).

(** [places (?:in|to visit in)\s+([A-Z][a-zA-Z\s]+?)(?:\s*[,\.\?]|$)] *)
Definition PATTERN_3 : regex :=
  Cat (Lit "places ")
 (Cat (Alt (Lit "in") (Lit "to visit in"))
 (Cat (Plus true Py.isspace)
 (Cat NAME
      (Alt (Cat (Star true Py.isspace) (Class (one_of [comma; full_stop; question_mark])))
           Eol)))).

(** [^([A-Z][a-zA-Z\s]+?)(?:\s+weather|places|trip|itinerary)] *)
Definition PATTERN_4 : regex :=
  Cat Bol
 (Cat NAME
      (Alt (Cat (Plus true Py.isspace) (Lit "weather"))
      (Alt (Lit "places") (Alt (Lit "trip") (Lit "itinerary"))))).

Definition patterns : list regex := [PATTERN_1; PATTERN_2; PATTERN_3; PATTERN_4].

(** [match.group(1).strip()]; a group that did not take part is [None],
    which has no [strip]. *)
Definition group1_strip (m : option string) : result string :=
  match m with
  | Some g => Ok (Py.strip g)
  | None => Raise OtherException
  end.

(** The [for pattern in patterns] loop. *)
Fixpoint first_pattern (ps : list regex) (user_input : string) : option (result string) :=
  match ps with
  | [] => None
  | pattern :: rest =>
      match search pattern user_input with
      | Some m => Some (group1_strip m)
      | None => first_pattern rest user_input
      end
  end.

Definition STOP_WORDS : list string :=
  ["i"; "i'm"; "going"; "to"; "what"; "let"; "plan"; "my"; "trip"; "the"].

(** [w and w[0].isupper() and w.lower() not in [...]] *)
Definition is_capitalized (w : string) : bool :=
  match w with
  | String c _ => Py.isupper c && negb (bool_decide (Py.lower w ∈ STOP_WORDS))
  | EmptyString => false
  end.

Definition capitalized_words (user_input : string) : list string :=
  filter (fun w => is_capitalized w = true) (Py.split user_input).

(** [extract_place_name], with the exception it could raise. *)
Definition extract_place_name_checked (user_input : string) : result string :=
  match first_pattern patterns user_input with
  | Some place => place
  | None =>
      match capitalized_words user_input with
      | [] => Ok user_input
      | ws => Ok (Py.join " " ws)
      end
  end.

(** [extract_place_name]: the value it returns; it never raises
    ([extract_place_name_checked_ok]). *)
Definition extract_place_name (user_input : string) : string :=
  try_except (extract_place_name_checked user_input) (fun _ => user_input).

(** The structured object [understand_query] returns: a dictionary
    with the four keys; a field is [None] when the key is missing, and
    [a_place] also when its value is [null].  Its intents, when given,
    are a list of names; [reply], further down, is the dictionary with
    intents of any kind. *)
Record analysis : Type := {
  a_place : option string;
  a_intents : option (list string);
  a_days : option Z;
  a_is_valid_query : option bool
}.

Definition GREETING_WORDS : list string :=
  ["hi"; "hello"; "hey"; "thanks"; "thank you"; "bye"; "goodbye"].

(** [user_input.lower().strip() in greeting_words] *)
Definition is_greeting (user_input : string) : bool :=
  bool_decide (Py.strip (Py.lower user_input) ∈ GREETING_WORDS).

(** The dictionary both [except] clauses build. *)
Definition fallback_analysis (user_input : string) : analysis :=
  let place := extract_place_name user_input in
  let is_greeting := is_greeting user_input in
  {| a_place := if negb is_greeting then Some place else None;
     a_intents := Some (if is_greeting then ["greeting"] else ["weather"; "places"]);
     a_days := Some 1;
     a_is_valid_query := Some (negb is_greeting && Py.truthy place) |}.

(** [if result.get('place') in [None, 'null', 'None', '']: result['place'] = None] *)
Definition normalize_place (r : analysis) : analysis :=
  if bool_decide (a_place r ∈ [None; Some "null"; Some "None"; Some ""])
  then {| a_place := None; a_intents := a_intents r; a_days := a_days r;
          a_is_valid_query := a_is_valid_query r |}
  else r.

(** [understand_query]; [decoded] is the outcome of the [try] block up
    to [json.loads]: the completion is requested, its text stripped of
    the code fence and decoded. *)
Definition understand_query (user_input : string) (decoded : result analysis) : analysis :=
  try_except (r ← decoded; mret (normalize_place r))
    (fun e =>
       match e with
       | JSONDecodeError => fallback_analysis user_input
       | _ => fallback_analysis user_input
       end).

Definition double_quote : ascii := ascii_of_nat 34.
Definition single_quote : ascii := ascii_of_nat 39.

(** [_get_spelling_suggestions]; [completion] is the text of the reply. *)
Definition _get_spelling_suggestions (place_name : string) (completion : result string)
  : string :=
  try_except
    (content ← completion;
     mret (Py.strip_char single_quote (Py.strip_char double_quote (Py.strip content))))
    (fun _ => place_name).

(** The data mapping of a result bundle: each of its four keys is
    present or not. *)
Record data_map : Type := {
  d_weather : option json;
  d_places : option (list place);
  d_tips : option string;
  d_itinerary : option string
}.

Definition no_data : data_map :=
  {| d_weather := None; d_places := None; d_tips := None; d_itinerary := None |}.

(** [list(data.keys())], in the order the keys are inserted. *)
Definition present {A : Type} (field : option A) : bool :=
  match field with Some _ => true | None => false end.

Definition data_keys (d : data_map) : list string :=
  (if present (d_weather d) then ["weather"] else [])
  ++ (if present (d_places d) then ["places"] else [])
  ++ (if present (d_tips d) then ["tips"] else [])
  ++ (if present (d_itinerary d) then ["itinerary"] else []).

(** Truth value of [data.get('weather')] and of [data.get('places')]. *)
Definition weather_truthy (d : data_map) : bool :=
  match d_weather d with Some j => json_truthy j | None => false end.

Definition places_truthy (d : data_map) : bool :=
  match d_places d with Some (_ :: _) => true | _ => false end.

(** The result bundle: the failure dictionary or the full one. *)
Inductive bundle : Type :=
| Failure (is_greeting : bool) (message : string)
| Success (place display_name : string) (coordinates : float * float)
    (intents : list string) (data : data_map) (summary : string).

Definition success (b : bundle) : bool :=
  match b with Failure _ _ => false | Success _ _ _ _ _ _ => true end.

Definition bundle_data (b : bundle) : data_map :=
  match b with Failure _ _ => no_data | Success _ _ _ _ d _ => d end.

Definition HELP_MESSAGE : string :=
  "ðŸ‘‹ Hello! I'm your AI travel assistant. Please tell me which city or place you'd like to visit, and I can help you with:" ++ Py.newline ++
  Py.newline ++
  "â€¢ Current weather and 7-day forecasts" ++ Py.newline ++
  "â€¢ Top tourist attractions" ++ Py.newline ++
  "â€¢ Personalized itineraries" ++ Py.newline ++
  "â€¢ Travel tips and recommendations" ++ Py.newline ++
  Py.newline ++
  "For example, try:" ++ Py.newline ++
  "- 'I'm going to Paris'" ++ Py.newline ++
  "- 'What's the weather in Tokyo?'" ++ Py.newline ++
  "- 'Plan a 3-day trip to Rome'".

Definition DID_YOU_MEAN : string :=
  Py.newline ++ Py.newline ++ "ðŸ’¡ Did you mean **".

Definition TRY_THAT : string := "**? Try searching for that instead!".

Definition CHECK_SPELLING : string :=
  Py.newline ++ Py.newline ++
  "Please check the spelling or try a different location." ++ Py.newline ++
  Py.newline ++
  "Tip: Try using well-known city names like 'London', 'New York', or 'Tokyo'.".

(** [error_msg] of the not-found branch. *)
Definition not_found_message (place_name suggestion : string) : string :=
  let error_msg := "I couldn't find a place called '" ++ place_name ++ "'." in
  if Py.truthy suggestion && negb (bool_decide (suggestion = place_name))
  then error_msg ++ DID_YOU_MEAN ++ suggestion ++ TRY_THAT
  else error_msg ++ CHECK_SPELLING.

Definition summary_fallback (place : string) : string :=
  "I found comprehensive information about " ++ place ++
  " including current weather conditions, locations to explore, and travel recommendations. Check the detailed tabs below for complete information!".

(** [_generate_summary]; [completion] is the outcome of its [try] block. *)
Definition _generate_summary (place : string) (completion : result string) : string :=
  try_except (summary ← completion; mret summary) (fun _ => summary_fallback place).

(** *** The world outside and the trace of calls *)

(** What the process does not contain: the builtin [float()] on text,
    the outcome of the [try] block around each chat completion (as a
    function of what the prompt is built from), and the decoded reply
    of each HTTP service (as a function of its request).  A query asks
    each of them at most once. *)
Record world : Type := {
  py_float : string -> option float;
  chat_intent : string -> result analysis;
  chat_spelling : string -> result string;
  chat_tips : string -> json -> list place -> result string;
  chat_itinerary : string -> list place -> Z -> result string;
  chat_summary : string -> string -> string -> data_map -> result string;
  http_geocoding : string -> result (list candidate);
  http_weather : float -> float -> Z -> result json;
  http_places : float -> float -> Z -> Z -> result (option (list element))
}.

Inductive call : Type :=
| CallIntent (user_input : string)
| CallGeocoding (place_name : string)
| CallSpelling (place_name : string)
| CallWeather (lat lon : float)
| CallPlaces (lat lon : float) (radius limit : Z)
| CallTips (place_name : string)
| CallItinerary (place_name : string) (days : Z)
| CallSummary (place_name : string).

Record traced (A : Type) : Type := Traced { value : A; calls : list call }.
Arguments Traced {A} value calls.
Arguments value {A} t.
Arguments calls {A} t.

#[export] Instance traced_ret : MRet traced := fun A a => Traced a [].
#[export] Instance traced_bind : MBind traced := fun A B f m =>
  Traced (value (f (value m))) (calls m ++ calls (f (value m))).

(** A call that leaves the process, with what comes back. *)
Definition perform {A : Type} (c : call) (a : A) : traced A := Traced a [c].

Definition is_weather_call (c : call) : bool :=
  match c with CallWeather _ _ => true | _ => false end.
Definition is_places_call (c : call) : bool :=
  match c with CallPlaces _ _ _ _ => true | _ => false end.
Definition is_tips_call (c : call) : bool :=
  match c with CallTips _ => true | _ => false end.
Definition is_itinerary_call (c : call) : bool :=
  match c with CallItinerary _ _ => true | _ => false end.

(** How often a kind of call occurs in a trace. *)
Fixpoint count_calls (kind : call -> bool) (t : list call) : nat :=
  match t with
  | [] => 0%nat
  | c :: t' => ((if kind c then 1 else 0) + count_calls kind t')%nat
  end.

(** ['x' in intents] *)
Definition has (x : string) (intents : list string) : bool := bool_decide (x ∈ intents).

(** The guard of the greeting branch. *)
Definition rejects (intents : list string) (place_name : option string) (is_valid : bool)
  : bool :=
  has "greeting" intents || negb (Py.truthy_opt place_name) || negb is_valid.

(** The four steps that fill the data mapping. *)
Definition fetch_weather (w : world) (intents : list string) (g : geo) (d : data_map)
  : traced data_map :=
  if has "weather" intents || has "general" intents
  then
    weather_data ← perform (CallWeather (geo_lat g) (geo_lon g))
      (get_weather (http_weather w (geo_lat g) (geo_lon g) DEFAULT_FORECAST_DAYS));
    mret (if json_truthy weather_data
          then {| d_weather := Some weather_data; d_places := d_places d;
                  d_tips := d_tips d; d_itinerary := d_itinerary d |}
          else d)
  else mret d.

Definition fetch_places (w : world) (intents : list string) (g : geo)
  (search_radius max_places : Z) (d : data_map) : traced data_map :=
  if has "places" intents || has "general" intents || has "itinerary" intents
  then
    places_data ← perform (CallPlaces (geo_lat g) (geo_lon g) search_radius max_places)
      (get_tourist_places max_places
         (http_places w (geo_lat g) (geo_lon g) search_radius max_places));
    mret (match places_data with
          | _ :: _ => {| d_weather := d_weather d; d_places := Some places_data;
                         d_tips := d_tips d; d_itinerary := d_itinerary d |}
          | [] => d
          end)
  else mret d.

Definition make_tips (w : world) (intents : list string) (place_name : string)
  (d : data_map) : traced data_map :=
  if has "tips" intents && weather_truthy d && places_truthy d
  then
    tips ← perform (CallTips place_name)
      (get_travel_tips
         (chat_tips w place_name (default JNull (d_weather d)) (default [] (d_places d))));
    mret {| d_weather := d_weather d; d_places := d_places d;
            d_tips := Some tips; d_itinerary := d_itinerary d |}
  else mret d.

Definition make_itinerary (w : world) (intents : list string) (place_name : string)
  (days : Z) (d : data_map) : traced data_map :=
  if has "itinerary" intents && places_truthy d
  then
    itinerary ← perform (CallItinerary place_name days)
      (get_itinerary (chat_itinerary w place_name (default [] (d_places d)) days));
    mret {| d_weather := d_weather d; d_places := d_places d;
            d_tips := d_tips d; d_itinerary := Some itinerary |}
  else mret d.

(** [process_query] *)
Definition process_query (w : world) (user_input : string)
  (search_radius max_places : Z) : traced bundle :=
  query_analysis ← perform (CallIntent user_input)
    (understand_query user_input (chat_intent w user_input));
  let place_name := a_place query_analysis in
  let intents := default ["weather"; "places"] (a_intents query_analysis) in
  let days := default 1 (a_days query_analysis) in
  let is_valid := default true (a_is_valid_query query_analysis) in
  if rejects intents place_name is_valid
  then mret (Failure true HELP_MESSAGE)
  else
    let place_name := default "" place_name in
    geo_data ← perform (CallGeocoding place_name)
      (get_coordinates (py_float w) (http_geocoding w place_name));
    match geo_data with
    | None =>
        suggestion ← perform (CallSpelling place_name)
          (_get_spelling_suggestions place_name (chat_spelling w place_name));
        mret (Failure false (not_found_message place_name suggestion))
    | Some g =>
        d1 ← fetch_weather w intents g no_data;
        d2 ← fetch_places w intents g search_radius max_places d1;
        d3 ← make_tips w intents place_name d2;
        d4 ← make_itinerary w intents place_name days d3;
        summary ← perform (CallSummary place_name)
          (_generate_summary place_name
             (chat_summary w user_input place_name (geo_display_name g) d4));
        mret (Success place_name (geo_display_name g) (geo_lat g, geo_lon g)
                intents d4 summary)
    end.

(** *** A reply whose intents are not a list *)

(** What stands under ['intents'] in the decoded reply, as the tests
    [x in intents] of [process_query] see it: a list of names, or a
    value on which [in] raises [TypeError], as [None] (the JSON
    [null]), a number and a boolean do.  A text or a mapping stands as
    the list of the names these tests find in it. *)
Inductive intents_value : Type :=
| IntentList (names : list string)
| IntentNull.

(** The dictionary [json.loads] gives, with the four keys as
    [understand_query] and [process_query] read them.  An [analysis]
    is a reply whose intents, when given, are a list. *)
Record reply : Type := {
  reply_place : option string;
  reply_intents : option intents_value;
  reply_days : option Z;
  reply_is_valid_query : option bool
}.

Definition reply_of (a : analysis) : reply :=
  {| reply_place := a_place a;
     reply_intents := IntentList <$> a_intents a;
     reply_days := a_days a;
     reply_is_valid_query := a_is_valid_query a |}.

(** [if result.get('place') in [None, 'null', 'None', '']: result['place'] = None] *)
Definition normalize_reply (r : reply) : reply :=
  if bool_decide (reply_place r ∈ [None; Some "null"; Some "None"; Some ""])
  then {| reply_place := None; reply_intents := reply_intents r;
          reply_days := reply_days r;
          reply_is_valid_query := reply_is_valid_query r |}
  else r.

(** [understand_query] on any decoded reply; the two [except] clauses
    build the dictionary of [fallback_analysis]. *)
Definition understand_query_reply (user_input : string) (decoded : result reply) : reply :=
  try_except (r ← decoded; mret (normalize_reply r))
    (fun e =>
       match e with
       | JSONDecodeError => reply_of (fallback_analysis user_input)
       | _ => reply_of (fallback_analysis user_input)
       end).

(** [process_query] on any decoded reply.  It has no [try] block of
    its own: the test ['greeting' in intents], the first of the guard,
    raises [TypeError], one of the other exceptions, when the intents
    are not a list, and the exception leaves [process_query].  Past
    that test the intents are a list, and the steps are those of
    [process_query] above. *)
Definition process_query_reply (w : world) (decoded : result reply) (user_input : string)
  (search_radius max_places : Z) : traced (result bundle) :=
  query_analysis ← perform (CallIntent user_input)
    (understand_query_reply user_input decoded);
  let place_name := reply_place query_analysis in
  let intents := default (IntentList ["weather"; "places"]) (reply_intents query_analysis) in
  let days := default 1 (reply_days query_analysis) in
  let is_valid := default true (reply_is_valid_query query_analysis) in
  match intents with
  | IntentNull => mret (Raise OtherException)
  | IntentList intents =>
      if rejects intents place_name is_valid
      then mret (Ok (Failure true HELP_MESSAGE))
      else
        let place_name := default "" place_name in
        geo_data ← perform (CallGeocoding place_name)
          (get_coordinates (py_float w) (http_geocoding w place_name));
        match geo_data with
        | None =>
            suggestion ← perform (CallSpelling place_name)
              (_get_spelling_suggestions place_name (chat_spelling w place_name));
            mret (Ok (Failure false (not_found_message place_name suggestion)))
        | Some g =>
            d1 ← fetch_weather w intents g no_data;
            d2 ← fetch_places w intents g search_radius max_places d1;
            d3 ← make_tips w intents place_name d2;
            d4 ← make_itinerary w intents place_name days d3;
            summary ← perform (CallSummary place_name)
              (_generate_summary place_name
                 (chat_summary w user_input place_name (geo_display_name g) d4));
            mret (Ok (Success place_name (geo_display_name g) (geo_lat g, geo_lon g)
                        intents d4 summary))
        end
  end.

(** ** Vocabulary of the statements *)

(** Tuple comparison [a <= b], written out. *)
Definition key_le (a b : rank_key) : Prop :=
  let '(a1, a2, a3, a4, a5) := a in
  let '(b1, b2, b3, b4, b5) := b in
  (a1 < b1 \/ a1 = b1 /\
  (a2 < b2 \/ a2 = b2 /\
  (a3 < b3 \/ a3 = b3 /\
  (a4 < b4 \/ a4 = b4 /\ a5 <= b5))))%nat.

(** A place record carries a website or an encyclopedia reference. *)
Definition has_reference (p : place) : bool :=
  Py.truthy (p_wikipedia p) || Py.truthy (p_website p).

(** The names of the named elements of a reply, each once. *)
Definition named_set (elements : list element) : gset string :=
  list_to_set (filter (fun n => Py.truthy n = true)
                 (omap (fun e => tags_of e !! "name") elements)).

(** The geolocation result [g] is what candidate [c] holds: its two
    coordinates read as floats and its display name. *)
Definition describes (pyfloat : string -> option float) (c : candidate) (g : geo) : Prop :=
  exists lat_text lon_text,
    cand_lat c = Some lat_text /\ pyfloat lat_text = Some (geo_lat g) /\
    cand_lon c = Some lon_text /\ pyfloat lon_text = Some (geo_lon g) /\
    cand_display_name c = Some (geo_display_name g).

(** [place] is what the first matching pattern extracts from the input. *)
Definition by_pattern (user_input place : string) : Prop :=
  exists (earlier : list regex) (pattern : regex) (later : list regex) (g : string),
    patterns = (earlier ++ pattern :: later)%list /\
    Forall (fun q => search q user_input = None) earlier /\
    search pattern user_input = Some (Some g) /\
    place = Py.strip g.

Definition no_pattern (user_input : string) : Prop :=
  Forall (fun q => search q user_input = None) patterns.

(** The place of the fallback as the specification words it: taken by
    the patterns, or else the capitalized tokens that are no stop words,
    joined. *)
Definition spec_place (user_input : string) : string :=
  match first_pattern patterns user_input with
  | Some (Ok place) => place
  | _ => Py.join " " (capitalized_words user_input)
  end.

Definition spec_fallback_analysis (user_input : string) : analysis :=
  if is_greeting user_input
  then {| a_place := None; a_intents := Some ["greeting"]; a_days := Some 1;
          a_is_valid_query := Some false |}
  else {| a_place := Some (spec_place user_input);
          a_intents := Some ["weather"; "places"]; a_days := Some 1;
          a_is_valid_query := Some (Py.truthy (spec_place user_input)) |}.


(** A pattern without a capturing group. *)
Fixpoint groupless (r : regex) : bool :=
  match r with
  | Cat r1 r2 | Alt r1 r2 => groupless r1 && groupless r2
  | Group _ => false
  | _ => true
  end.

(** Every match of [r] leaves in group 1 a text that starts with a
    letter. *)
Definition captures_name (r : regex) : Prop :=
  forall (R : Type) (n0 : nat) (s : string) (cap : option string)
         (k : string -> option string -> option R) (x : R),
    rmatch n0 r s cap k = Some x ->
    exists s' c g, k s' (Some (String c g)) = Some x /\ letter c = true.

(** What [extract_place_name] makes of an input, strategy by strategy:
    the first matching pattern's name; or else the capitalized tokens,
    joined; or else, when there is none, the input itself. *)
Definition extracted (user_input place : string) : Prop :=
  by_pattern user_input place
  \/ (no_pattern user_input /\ capitalized_words user_input <> [] /\
      place = Py.join " " (capitalized_words user_input))
  \/ (no_pattern user_input /\ capitalized_words user_input = [] /\
      place = user_input).


(** ** Vocabulary of the further properties *)

(** The candidate the selection falls on lacks a coordinate or its
    display name, or has a coordinate [float()] rejects. *)
Definition incomplete (pyfloat : string -> option float) (c : candidate) : Prop :=
  cand_lat c = None \/ cand_lon c = None \/ cand_display_name c = None \/
  (exists t, cand_lat c = Some t /\ pyfloat t = None) \/
  (exists t, cand_lon c = Some t /\ pyfloat t = None).

(** Every character of [s] satisfies [p]. *)
Fixpoint all_chars (p : ascii -> bool) (s : string) : bool :=
  match s with
  | EmptyString => true
  | String c s' => p c && all_chars p s'
  end.

(** Nothing for [strip] to take: [s] neither begins nor ends with a
    character that satisfies [p]. *)
Definition trimmed (p : ascii -> bool) (s : string) : Prop :=
  Py.lstrip_by p s = s /\ Py.rstrip_by p s = s.

Definition is_double_quote (c : ascii) : bool := bool_decide (c = double_quote).
Definition is_single_quote (c : ascii) : bool := bool_decide (c = single_quote).



(** ** Further operations on [str] *)

Module PyStr.

(** [s.startswith(p)] *)
Fixpoint startswith (p s : string) : bool :=
  match p, s with
  | EmptyString, _ => true
  | String a p', String b s' => bool_decide (a = b) && startswith p' s'
  | String _ _, EmptyString => false
  end.

(** [sub in s], computed: [sub] begins at some position of [s]. *)
Fixpoint isin (sub s : string) : bool :=
  startswith sub s
  || match s with
     | EmptyString => false
     | String _ s' => isin sub s'
     end.

(** One more character at the front of the first piece. *)
Definition push (c : ascii) (pieces : list string) : list string :=
  match pieces with
  | [] => [String c EmptyString]
  | piece :: rest => String c piece :: rest
  end.

(** [s.split(sep)] for a separator that is not empty: the text is
    read from the left, and where [sep] begins a piece ends and the
    separator is passed over ([skip] counts what is left of it). *)
Fixpoint split_from (sep : string) (skip : nat) (s : string) : list string :=
  match s with
  | EmptyString => [EmptyString]
  | String c s' =>
      match skip with
      | S k => split_from sep k s'
      | O =>
          if startswith sep s
          then EmptyString :: split_from sep (Nat.pred (String.length sep)) s'
          else push c (split_from sep 0 s')
      end
  end.

Definition split_sep (sep s : string) : list string := split_from sep 0 s.

End PyStr.

(** [l[i]]; the [IndexError] of an index out of range is one of the
    other exceptions. *)
Definition item {A : Type} (i : nat) (l : list A) : result A :=
  match l !! i with
  | Some x => Ok x
  | None => Raise OtherException
  end.

(** The piece of [s] before the first place where [sep] begins: the
    whole of [s] if there is none. *)
Fixpoint first_piece (sep s : string) : string :=
  match s with
  | EmptyString => EmptyString
  | String c s' =>
      if PyStr.startswith sep s then EmptyString else String c (first_piece sep s')
  end.

Definition is_backtick (c : ascii) : bool := bool_decide (c = ascii_of_nat 96).
Definition is_colon (c : ascii) : bool := bool_decide (c = ascii_of_nat 58).
Definition is_newline (c : ascii) : bool := bool_decide (c = ascii_of_nat 10).

(** ** orchestrator.py: the reply of [understand_query], out of its
    code fence *)

Definition FENCE_JSON : string := "```json".
Definition FENCE : string := "```".

(** What [understand_query] hands to [json.loads], from the stripped
    reply [content]. *)
Definition fenced_content (content : string) : result string :=
  if PyStr.isin FENCE_JSON content then
    inner ← item 1 (PyStr.split_sep FENCE_JSON content);
    body ← item 0 (PyStr.split_sep FENCE inner);
    mret (Py.strip body)
  else if PyStr.isin FENCE content then
    inner ← item 1 (PyStr.split_sep FENCE content);
    body ← item 0 (PyStr.split_sep FENCE inner);
    mret (Py.strip body)
  else mret content.

(** ** orchestrator.py: what [_generate_summary] tells of the places
    and of the itinerary *)

Definition TOURIST_KEYWORDS : list string :=
  ["temple"; "park"; "museum"; "palace"; "fort"; "garden"; "lake"; "monument";
   "church"; "cathedral"; "mosque"; "tower"; "gallery"; "center"; "centre";
   "stadium"; "zoo"; "aquarium"; "beach"; "hill"; "viewpoint"; "mandir"; "masjid";
   "gurdwara"; "memorial"; "hall"; "statue"; "square"; "planetarium";
   "library"; "auditorium"; "vidhana"; "bhavan"; "soudha"; "ashram"; "ashrama";
   "arch"; "bridge"; "gate"; "glasshouse"; "glass house"; "hanging"].

Definition EXCLUDE_KEYWORDS : list string :=
  ["atm"; "office building"; "police station"; "pharmacy"; "apartment complex"].

Definition TOURIST_TYPES : list string :=
  ["attraction"; "museum"; "viewpoint"; "artwork"; "gallery"; "monument"; "memorial"].
Definition TOURISM_TAGS : list string :=
  ["attraction"; "museum"; "viewpoint"; "artwork"; "gallery"; "yes"].
Definition HISTORIC_TAGS : list string :=
  ["yes"; "monument"; "memorial"; "castle"; "fort"; "palace"; "archaeological_site"].
Definition LEISURE_TAGS : list string := ["park"; "garden"; "stadium"].

(** [any(exclude in name_lower for exclude in exclude_keywords)] *)
Definition should_exclude (name : string) : bool :=
  existsb (fun exclude => PyStr.isin exclude (Py.lower name)) EXCLUDE_KEYWORDS.

(** [tags.get(k, '').lower() if tags else ''] *)
Definition tag_lower (tags : gmap string string) (k : string) : string :=
  if bool_decide (tags = ∅) then EmptyString else Py.lower (default "" (tags !! k)).

Definition is_attraction (p : place) : bool :=
  let name_lower := Py.lower (p_name p) in
  let place_type := Py.lower (p_type p) in
  let has_tourist_keyword :=
    existsb (fun keyword => PyStr.isin keyword name_lower) TOURIST_KEYWORDS in
  let has_tourist_type := has place_type TOURIST_TYPES in
  let has_tourist_tag :=
    has (tag_lower (p_tags p) "tourism") TOURISM_TAGS
    || has (tag_lower (p_tags p) "historic") HISTORIC_TAGS
    || has (tag_lower (p_tags p) "leisure") LEISURE_TAGS in
  has_tourist_keyword || has_tourist_type || has_tourist_tag.

(** The loop over the places, with its two lists of names. *)
Fixpoint scan_places (places : list place) (actual_attractions all_place_names : list string)
  : list string * list string :=
  match places with
  | [] => (actual_attractions, all_place_names)
  | p :: rest =>
      let name := p_name p in
      if negb (Py.truthy name) || bool_decide (name = "Unknown")
      then scan_places rest actual_attractions all_place_names
      else
        let all_place_names :=
          if negb (should_exclude name) then (all_place_names ++ [name])%list
          else all_place_names in
        let actual_attractions :=
          if is_attraction p && negb (should_exclude name)
          then (actual_attractions ++ [name])%list
          else actual_attractions in
        scan_places rest actual_attractions all_place_names
  end.

(** [sample_places], or nothing where the prompt names no place. *)
Definition sample_places (places : list place) : list string :=
  let '(actual_attractions, all_place_names) := scan_places places [] [] in
  match actual_attractions, all_place_names with
  | _ :: _, _ => take 3 actual_attractions
  | [], _ :: _ => take 3 all_place_names
  | [], [] => []
  end.

(** [days], the number of day headings of the itinerary. *)
Definition is_day_heading (line : string) : bool :=
  PyStr.startswith "**Day" (Py.strip line).

Definition itinerary_days (itinerary : string) : nat :=
  length (List.filter is_day_heading (PyStr.split_sep Py.newline itinerary)).

(** ** ui_components.py: the encyclopedia link of [display_places] *)

Definition WIKI : string := "https://en.wikipedia.org/wiki/".

(** [wiki_url], the text built for a place whose [wikipedia] entry is
    true; the test of the entry is in [wikipedia_link] below. *)
Definition wiki_url (wikipedia : string) : result string :=
  title ← item 1 (PyStr.split_sep ":" wikipedia);
  mret (WIKI ++ title).

(** The link [display_places] shows for a place, from its [wikipedia]
    entry: none for an entry that is not true. *)
Definition wikipedia_link (wikipedia : string) : result (option string) :=
  if Py.truthy wikipedia
  then url ← wiki_url wikipedia; mret (Some url)
  else mret None.

(** ** app.py: the tabs and the map of [process_search] *)

Inductive tab : Type := WeatherTab | PlacesTab | ItineraryTab | TipsTab.

Definition tabs (d : data_map) : list tab :=
  (if weather_truthy d then [WeatherTab] else [])
  ++ (if places_truthy d then [PlacesTab] else [])
  ++ (if Py.truthy_opt (d_itinerary d) then [ItineraryTab] else [])
  ++ (if Py.truthy_opt (d_tips d) then [TipsTab] else []).






(** A place [_generate_summary] may name: it has a name, other than
    the word for none, that holds none of the excluded words. *)
Definition listed (p : place) : bool :=
  Py.truthy (p_name p) && negb (bool_decide (p_name p = "Unknown"))
  && negb (should_exclude (p_name p)).
(** ** Sample data *)

Definition tagged (tags : list (string * string)) (lat lon : option float)
  (center : option (gmap string float)) : element :=
  {| el_tags := Some (list_to_map tags); el_lat := lat; el_lon := lon;
     el_center := center |}.

Definition cafe : element :=
  tagged [("name", "Cafe Bleu"); ("amenity", "cafe")] (Some 48.5%float) (Some 2.25%float) None.

Definition louvre : element :=
  tagged [("name", "Louvre"); ("tourism", "museum"); ("wikipedia", "fr:Louvre")]
    (Some 48.75%float) (Some 2.5%float) None.

Definition unnamed_bench : element :=
  tagged [("amenity", "bench")] (Some 48.5%float) (Some 2.5%float) None.

Definition tuileries : element :=
  tagged [("name", "Tuileries"); ("leisure", "garden")] None None
    (Some (list_to_map [("lat", 48.625%float); ("lon", 2.375%float)])).

Definition louvre_again : element :=
  tagged [("name", "Louvre"); ("historic", "castle")] None None
    (Some (list_to_map [("lat", 48.75%float); ("lon", 2.5%float)])).

Definition sample_elements : list element :=
  [cafe; louvre; unnamed_bench; tuileries; louvre_again].

(** A node on the equator that also carries a centre. *)
Definition equator_marker : element :=
  tagged [("name", "Equator Marker"); ("tourism", "attraction")]
    (Some 0%float) (Some 9.5%float)
    (Some (list_to_map [("lat", 1.5%float); ("lon", 2.5%float)])).

(** A stand-in for [float()] on the three texts the samples use. *)
Definition sample_float (s : string) : option float :=
  if bool_decide (s = "48.5") then Some 48.5%float
  else if bool_decide (s = "2.25") then Some 2.25%float
  else if bool_decide (s = "0.5") then Some 0.5%float
  else None.

Definition eiffel_tower : candidate :=
  {| cand_type := Some "attraction"; cand_lat := Some "48.5"; cand_lon := Some "2.25";
     cand_display_name := Some "Tour Eiffel, Paris" |}.

Definition paris : candidate :=
  {| cand_type := Some "city"; cand_lat := Some "48.5"; cand_lon := Some "2.25";
     cand_display_name := Some "Paris, France" |}.

Definition paris_texas : candidate :=
  {| cand_type := Some "town"; cand_lat := Some "0.5"; cand_lon := Some "0.5";
     cand_display_name := Some "Paris, Texas" |}.

(** A candidate without its latitude. *)
Definition broken_candidate : candidate :=
  {| cand_type := Some "city"; cand_lat := None; cand_lon := Some "2.25";
     cand_display_name := Some "Nowhere" |}.

Definition paris_geo : geo :=
  {| geo_lat := 48.5%float; geo_lon := 2.25%float; geo_display_name := "Paris, France" |}.

(** A world for the samples: the intent reply, the spelling reply and
    the geocoding reply are given; the weather and the map data are
    served; the insight completions time out. *)
Definition sample_world (decoded : result analysis) (spelling : result string)
  (geocoding : result (list candidate)) : world :=
  {| py_float := sample_float;
     chat_intent := fun _ => decoded;
     chat_spelling := fun _ => spelling;
     chat_tips := fun _ _ _ => Raise Timeout;
     chat_itinerary := fun _ _ _ => Raise Timeout;
     chat_summary := fun _ _ _ _ => Raise Timeout;
     http_geocoding := fun _ => geocoding;
     http_weather := fun _ _ _ => Ok (JObj [("current", JObj [("weather_code", JNum 3%float)])]);
     http_places := fun _ _ _ _ => Ok (Some sample_elements) |}.

Definition weather_in_paris : analysis :=
  {| a_place := Some "Paris"; a_intents := Some ["weather"];
     a_days := Some 1; a_is_valid_query := Some true |}.

Definition trip_to_bangalore : analysis :=
  {| a_place := Some "bengalururu"; a_intents := Some ["places"; "itinerary"];
     a_days := Some 1; a_is_valid_query := Some true |}.


(** A world in which the analysis asks for the places and an itinerary
    of a misspelt city that the geocoding knows all the same. *)
Definition bangalore_world : world :=
  sample_world (Ok trip_to_bangalore) (Raise Timeout) (Ok [eiffel_tower; paris]).

Definition cafe_bleu : place := place_info "Cafe Bleu" cafe.
Definition the_louvre : place := place_info "Louvre" louvre.
(** * Properties *)

(** ** Python strings *)

Lemma append_cons (c : ascii) (s t : string) : String c s ++ t = String c (s ++ t).
Proof. reflexivity. Qed.

Lemma append_nil_l (t : string) : "" ++ t = t.
Proof. reflexivity. Qed.

Lemma append_nil_r (s : string) : s ++ "" = s.
Proof.
  induction s as [|c s IH]; [reflexivity|].
  now rewrite append_cons, IH.
Qed.

Lemma append_assoc (a b c : string) : (a ++ b) ++ c = a ++ b ++ c.
Proof.
  induction a as [|x a IH]; [reflexivity|].
  now rewrite !append_cons, IH.
Qed.

Lemma contains_refl (s : string) : Py.contains s s.
Proof. exists "", "". now rewrite append_nil_l, append_nil_r. Qed.

Lemma contains_app_l (sub a b : string) : Py.contains sub a -> Py.contains sub (a ++ b).
Proof.
  intros (x & y & ->). exists x, (y ++ b).
  now rewrite !append_assoc.
Qed.

Lemma contains_app_r (sub a b : string) : Py.contains sub b -> Py.contains sub (a ++ b).
Proof.
  intros (x & y & ->). exists (a ++ x), y.
  now rewrite !append_assoc.
Qed.

Lemma contains_trans (a b c : string) :
  Py.contains a b -> Py.contains b c -> Py.contains a c.
Proof.
  intros (x & y & ->) (x' & y' & ->). exists (x' ++ x), (y ++ y').
  now rewrite !append_assoc.
Qed.

Lemma truthy_app_l (a b : string) : Py.truthy a = true -> Py.truthy (a ++ b) = true.
Proof. destruct a; [discriminate|]. now rewrite append_cons. Qed.

Lemma truthy_nonempty (s : string) : Py.truthy s = true <-> s <> "".
Proof. destruct s; simpl; split; congruence. Qed.

(** [int(str(n)) == n]: the numeral [str] prints denotes the number. *)
Lemma int_str_str_int (n : Z) : Py.int_str (Py.str_int n) = Some n.
Proof.
  unfold Py.int_str, Py.str_int.
  rewrite NilZero.isi.
  - now rewrite DecimalZ.of_to.
  - destruct n as [|p|p]; simpl; try discriminate.
    intros [= H]. now apply (Unsigned.to_uint_nonnil p).
  - destruct n as [|p|p]; simpl; try discriminate.
    intros [= H]. now apply (Unsigned.to_uint_nonnil p).
Qed.

(** ** Weather codes *)

(** C4.  [get_weather_description] is a total function of the integer
    code.  A code that is a key of [WEATHER_CODES] gets the label the
    table pairs it with; any other code gets the text "Unknown (code)",
    which is not empty and contains the decimal numeral of the code
    (the numeral reads back as the code). *)
Theorem get_weather_description_total (weather_code : Z) :
  match WEATHER_CODES !! weather_code with
  | Some label =>
      (weather_code, label) ∈ WEATHER_CODES_items /\
      get_weather_description weather_code = label
  | None =>
      (weather_code ∉ WEATHER_CODES_items.*1) /\
      get_weather_description weather_code
        = "Unknown (" ++ Py.str_int weather_code ++ ")" /\
      Py.truthy (get_weather_description weather_code) = true /\
      Py.contains (Py.str_int weather_code) (get_weather_description weather_code) /\
      Py.int_str (Py.str_int weather_code) = Some weather_code
  end.
Proof.
  unfold get_weather_description.
  destruct (WEATHER_CODES !! weather_code) as [label|] eqn:Hget.
  - split; [|reflexivity].
    now apply elem_of_list_to_map_2.
  - split; [now apply not_elem_of_list_to_map|].
    split; [reflexivity|]. split; [now apply truthy_app_l|]. split.
    + apply (contains_app_r _ "Unknown ("), contains_app_l, contains_refl.
    + apply int_str_str_int.
Qed.

(** ** Geocoding *)

Lemma geo_of_describes (pyfloat : string -> option float) (c : candidate) (g : geo) :
  describes pyfloat c g -> geo_of pyfloat c = Ok g.
Proof.
  intros (lat_text & lon_text & Hlat & Hx & Hlon & Hy & Hname).
  unfold geo_of, to_float. rewrite Hlat, Hlon, Hname. simpl.
  rewrite Hx. simpl. rewrite Hy. simpl. now destruct g.
Qed.

Lemma prefer_place_skip (pyfloat : string -> option float)
  (earlier rest : list candidate) :
  Forall (fun d => is_place_type d = false) earlier ->
  prefer_place pyfloat (earlier ++ rest)%list = prefer_place pyfloat rest.
Proof.
  induction 1 as [|d earlier Hd _ IH]; simpl; [reflexivity|].
  now rewrite Hd.
Qed.

Lemma prefer_place_none (pyfloat : string -> option float) (data : list candidate) :
  Forall (fun d => is_place_type d = false) data ->
  prefer_place pyfloat data = Ok None.
Proof.
  intros H. rewrite <- (app_nil_r data). now rewrite prefer_place_skip.
Qed.

(** C5.  On a decoded reply [data], [get_coordinates] returns
    - the coordinates and display name of the first candidate whose
      type is city, town, village, municipality or administrative;
    - those of the first candidate when no candidate has such a type;
    - [None] when the array is empty.
    A candidate is taken to hold what the endpoint promises: two
    coordinates [float()] reads and a display name. *)
Theorem get_coordinates_selection (pyfloat : string -> option float) :
  (forall (earlier later : list candidate) (c : candidate) (g : geo),
      Forall (fun d => is_place_type d = false) earlier ->
      is_place_type c = true ->
      describes pyfloat c g ->
      get_coordinates pyfloat (Ok (earlier ++ c :: later)%list) = Some g) /\
  (forall (first : candidate) (rest : list candidate) (g : geo),
      Forall (fun d => is_place_type d = false) (first :: rest) ->
      describes pyfloat first g ->
      get_coordinates pyfloat (Ok (first :: rest)) = Some g) /\
  get_coordinates pyfloat (Ok []) = None.
Proof.
  split; [|split].
  - intros earlier later c g Hearlier Hc Hg.
    unfold get_coordinates, get_coordinates_body. simpl.
    rewrite prefer_place_skip by assumption. simpl.
    rewrite Hc, (geo_of_describes _ _ _ Hg). simpl.
    now destruct earlier.
  - intros first rest g Hall Hg.
    unfold get_coordinates, get_coordinates_body. simpl.
    pose proof (prefer_place_none pyfloat _ Hall) as Hnone.
    simpl in Hnone. rewrite Hnone. simpl.
    now rewrite (geo_of_describes _ _ _ Hg).
  - reflexivity.
Qed.

Lemma get_coordinates_selection_witness :
  get_coordinates sample_float (Ok [eiffel_tower; paris; paris_texas]) = Some paris_geo.
Proof.
  apply (proj1 (get_coordinates_selection sample_float) [eiffel_tower] [paris_texas] paris).
  - repeat constructor.
  - reflexivity.
  - exists "48.5", "2.25". repeat split; reflexivity.
Defined.

(** ** Ranking order *)

Lemma key_lt_false_le (a b : rank_key) : key_lt a b = false -> key_le b a.
Proof.
  destruct a as [[[[a1 a2] a3] a4] a5], b as [[[[b1 b2] b3] b4] b5].
  unfold key_lt, key_le. intros H.
  repeat match type of H with
  | (_ || _) = false => apply orb_false_iff in H; destruct H as [?%Nat.ltb_ge H]
  | (_ && _) = false => apply andb_false_iff in H; destruct H as [?%Nat.eqb_neq | H]
  | (_ <? _)%nat = false => apply Nat.ltb_ge in H
  end; lia.
Qed.

Lemma key_lt_true_le (a b : rank_key) : key_lt a b = true -> key_le a b.
Proof.
  destruct a as [[[[a1 a2] a3] a4] a5], b as [[[[b1 b2] b3] b4] b5].
  unfold key_lt, key_le. intros H.
  repeat match type of H with
  | (_ || _) = true => apply orb_true_iff in H; destruct H as [?%Nat.ltb_lt | H]
  | (_ && _) = true => apply andb_true_iff in H; destruct H as [?%Nat.eqb_eq H]
  | (_ <? _)%nat = true => apply Nat.ltb_lt in H
  end; lia.
Qed.

Lemma key_le_trans (a b c : rank_key) : key_le a b -> key_le b c -> key_le a c.
Proof.
  destruct a as [[[[a1 a2] a3] a4] a5], b as [[[[b1 b2] b3] b4] b5],
           c as [[[[c1 c2] c3] c4] c5].
  unfold key_le. lia.
Qed.

Lemma key_le_first (a b : rank_key) : key_le a b -> (a.1.1.1.1 <= b.1.1.1.1)%nat.
Proof.
  destruct a as [[[[a1 a2] a3] a4] a5], b as [[[[b1 b2] b3] b4] b5].
  unfold key_le. simpl. lia.
Qed.

Section Sorting.

Context {A : Type} (key : A -> rank_key).

Let le (x y : A) : Prop := key_le (key x) (key y).

Lemma insert_sorted_perm (x : A) (l : list A) : insert_sorted key x l ≡ₚ x :: l.
Proof.
  induction l as [|y l IH]; simpl; [reflexivity|].
  destruct (key_lt (key y) (key x)); [|reflexivity].
  rewrite IH. apply perm_swap.
Qed.

Lemma sorted_perm (l : list A) : sorted key l ≡ₚ l.
Proof.
  induction l as [|x l IH]; simpl; [reflexivity|].
  now rewrite insert_sorted_perm, IH.
Qed.

Lemma insert_sorted_Sorted (x : A) (l : list A) :
  Sorted le l -> Sorted le (insert_sorted key x l).
Proof.
  induction 1 as [|y l Hl IH Hhd]; simpl.
  - repeat constructor.
  - destruct (key_lt (key y) (key x)) eqn:Hlt.
    + constructor; [exact IH|].
      destruct Hhd as [|z l Hyz]; simpl.
      * constructor. now apply key_lt_true_le.
      * destruct (key_lt (key z) (key x)); constructor;
          [exact Hyz | now apply key_lt_true_le].
    + constructor; [now constructor|].
      constructor. now apply key_lt_false_le.
Qed.

Lemma sorted_Sorted (l : list A) : Sorted le (sorted key l).
Proof.
  induction l as [|x l IH]; simpl; [constructor|].
  now apply insert_sorted_Sorted.
Qed.

Lemma sorted_StronglySorted (l : list A) : StronglySorted le (sorted key l).
Proof.
  apply Sorted_StronglySorted; [|apply sorted_Sorted].
  intros x y z. apply key_le_trans.
Qed.

Lemma key_lt_irrefl (a : rank_key) : key_lt a a = false.
Proof.
  destruct a as [[[[a1 a2] a3] a4] a5]. unfold key_lt.
  now rewrite !Nat.ltb_irrefl, !Nat.eqb_refl.
Qed.

(** The sort is stable: the elements of one key keep their order. *)
Lemma sorted_stable (v : rank_key) (l : list A) :
  filter (fun x => key x = v) (sorted key l) = filter (fun x => key x = v) l.
Proof.
  induction l as [|x l IH]; simpl; [reflexivity|].
  rewrite (filter_cons (fun x => key x = v) x l), <- IH. clear IH.
  induction (sorted key l) as [|y s IHs]; simpl; [reflexivity|].
  destruct (key_lt (key y) (key x)) eqn:Hlt; [|reflexivity].
  rewrite !filter_cons, IHs.
  destruct (decide (key y = v)) as [Hy|]; destruct (decide (key x = v)) as [Hx|];
    try reflexivity.
  rewrite Hy, Hx, key_lt_irrefl in Hlt. discriminate.
Qed.

End Sorting.

Lemma StronglySorted_take_le {A : Type} (R : A -> A -> Prop) (n : nat) (l : list A) :
  StronglySorted R l -> StronglySorted R (take n l).
Proof.
  intros H. revert n.
  induction H as [|x l Hl IH Hx]; intros [|n]; simpl; try constructor.
  - apply IH.
  - apply Forall_take, Hx.
Qed.

Lemma StronglySorted_lookup_le {A : Type} (R : A -> A -> Prop) (l : list A)
  (i j : nat) (x y : A) :
  StronglySorted R l -> (i < j)%nat -> l !! i = Some x -> l !! j = Some y -> R x y.
Proof.
  intros H. revert i j.
  induction H as [|z l Hl IH Hz]; intros i j Hij Hi Hj; [discriminate|].
  destruct j as [|j]; [lia|]. simpl in Hj.
  destruct i as [|i]; simpl in Hi.
  - injection Hi as ->.
    rewrite Forall_forall in Hz. apply Hz.
    eapply list_elem_of_lookup_2, Hj.
  - apply (IH i j); [lia | assumption | assumption].
Qed.

(** ** Points of interest *)

Lemma named_set_cons (e : element) (elements : list element) :
  named_set (e :: elements) =
    match tags_of e !! "name" with
    | Some name =>
        if Py.truthy name then {[name]} ∪ named_set elements else named_set elements
    | None => named_set elements
    end.
Proof.
  unfold named_set. simpl.
  destruct (tags_of e !! "name") as [name|]; [|reflexivity].
  rewrite filter_cons.
  destruct (Py.truthy name); destruct (decide _); try congruence; reflexivity.
Qed.

(** The loop adds one record for each new name. *)
Lemma collect_length (elements : list element) (places : list place)
  (seen_names : gset string) :
  length (collect elements places seen_names)
    = (length places + size (named_set elements ∖ seen_names))%nat.
Proof.
  revert places seen_names.
  induction elements as [|e elements IH]; intros places seen_names.
  - cbn [collect].
    replace (named_set [] ∖ seen_names) with (∅ : gset string).
    + rewrite size_empty. lia.
    + apply set_eq. intros n. rewrite elem_of_difference.
      unfold named_set. simpl. rewrite elem_of_empty. tauto.
  - rewrite named_set_cons. cbn [collect].
    destruct (tags_of e !! "name") as [name|]; [|apply IH].
    destruct (Py.truthy name); cbn [andb]; [|apply IH].
    destruct (bool_decide (name ∈ seen_names)) eqn:Hseen; cbn [negb].
    + apply bool_decide_eq_true in Hseen. rewrite IH.
      f_equal. f_equal. apply set_eq. intros n.
      rewrite !elem_of_difference, elem_of_union, elem_of_singleton.
      destruct (decide (n = name)) as [->|]; tauto.
    + apply bool_decide_eq_false in Hseen.
      assert (Hsplit : ({[name]} ∪ named_set elements) ∖ seen_names
                = {[name]} ∪ named_set elements ∖ (seen_names ∪ {[name]})).
      { apply set_eq. intros n. rewrite !elem_of_difference, !elem_of_union,
          !elem_of_difference, !elem_of_union, !elem_of_singleton.
        destruct (decide (n = name)) as [->|]; tauto. }
      rewrite IH, length_app, Hsplit.
      rewrite (size_union (C:=gset string) {[name]}), size_singleton; [simpl; lia|].
      intros n ->%elem_of_singleton [_ Hn]%elem_of_difference.
      apply Hn, elem_of_union_r, elem_of_singleton. reflexivity.
Qed.

(** No name is recorded twice. *)
Lemma collect_NoDup (elements : list element) (places : list place)
  (seen_names : gset string) :
  NoDup (p_name <$> places) ->
  (forall p, p ∈ places -> p_name p ∈ seen_names) ->
  NoDup (p_name <$> collect elements places seen_names).
Proof.
  revert places seen_names.
  induction elements as [|e elements IH]; intros places seen_names Hnd Hseen;
    [exact Hnd|].
  simpl. destruct (tags_of e !! "name") as [name|]; [|now apply IH].
  destruct (Py.truthy name); simpl; [|now apply IH].
  destruct (bool_decide (name ∈ seen_names)) eqn:Hin; simpl; [now apply IH|].
  apply bool_decide_eq_false in Hin.
  apply IH.
  - rewrite fmap_app. simpl. apply NoDup_app. split; [exact Hnd|].
    split; [|apply NoDup_singleton].
    intros n Hn ->%list_elem_of_singleton.
    apply list_elem_of_fmap in Hn as (p & -> & Hp).
    now apply Hin, Hseen.
  - intros p [Hp | ->%list_elem_of_singleton]%elem_of_app.
    + apply elem_of_union_l, Hseen, Hp.
    + apply elem_of_union_r, elem_of_singleton. reflexivity.
Qed.

(** Every record is the one built from a named element of the reply. *)
Lemma collect_elem_of (elements : list element) (places : list place)
  (seen_names : gset string) (p : place) :
  p ∈ collect elements places seen_names ->
  p ∈ places \/
  exists e, e ∈ elements /\ tags_of e !! "name" = Some (p_name p) /\
            Py.truthy (p_name p) = true /\ p = place_info (p_name p) e.
Proof.
  revert places seen_names.
  induction elements as [|e elements IH]; intros places seen_names Hp; [now left|].
  simpl in Hp.
  assert (Hrest : forall pl sn, p ∈ collect elements pl sn -> p ∈ pl \/
    exists e0, e0 ∈ e :: elements /\ tags_of e0 !! "name" = Some (p_name p) /\
               Py.truthy (p_name p) = true /\ p = place_info (p_name p) e0).
  { intros pl sn H. destruct (IH _ _ H) as [?|(e0 & He0 & ?)]; [now left|].
    right. exists e0. split; [now apply list_elem_of_further | assumption]. }
  destruct (tags_of e !! "name") as [name|] eqn:Hname; [|now apply Hrest in Hp].
  destruct (Py.truthy name) eqn:Htruthy; simpl in Hp; [|now apply Hrest in Hp].
  destruct (bool_decide (name ∈ seen_names)); simpl in Hp; [now apply Hrest in Hp|].
  apply Hrest in Hp as [Hp|Hp]; [|now right].
  apply elem_of_app in Hp as [Hp | ->%list_elem_of_singleton]; [now left|].
  right. exists e. simpl. split; [apply list_elem_of_here|]. auto.
Qed.

Lemma place_info_reference (name : string) (e : element) :
  has_reference (place_info name e) = true <->
  (rank (place_info name e)).1.1.1.1 = 0%nat.
Proof.
  unfold has_reference, rank. simpl.
  destruct (tags_of e !! "wikipedia") as [[|c s]|], (tags_of e !! "website") as [[|c' s']|];
    simpl; split; congruence.
Qed.

(** C1.  When the reply holds more distinct names than the requested
    limit (a count, so not negative), [get_tourist_places] returns
    exactly [limit] records, no two of them with the same name, in
    ascending order of the tuple [rank] computes; so a record with a
    website or encyclopedia reference never comes behind one without.
    Each record is the one built from an element of the reply.

    In [rank], as in the source, an element has a tag when [tags.get]
    is true of it: the tag is there and its value is not empty. *)
Theorem get_tourist_places_ranked (limit : Z) (data : option (list element)) :
  let elements := default [] data in
  0 <= limit ->
  limit < Z.of_nat (size (named_set elements)) ->
  let places := get_tourist_places limit (Ok data) in
  Z.of_nat (length places) = limit /\
  NoDup (p_name <$> places) /\
  StronglySorted (fun p q => key_le (rank p) (rank q)) places /\
  (forall (i j : nat) (p q : place),
      (i < j)%nat -> places !! i = Some p -> places !! j = Some q ->
      has_reference q = true -> has_reference p = true) /\
  (forall p, p ∈ places ->
      exists e, e ∈ elements /\ tags_of e !! "name" = Some (p_name p) /\
                p = place_info (p_name p) e).
Proof.
  intros elements Hnonneg Hmore.
  assert (Hlen : length (collect elements [] ∅) = size (named_set elements)).
  { rewrite collect_length. simpl. f_equal. apply set_eq. intros n.
    rewrite elem_of_difference, elem_of_empty. tauto. }
  assert (Hplaces : get_tourist_places limit (Ok data)
                    = take (Z.to_nat limit) (sorted rank (collect elements [] ∅))).
  { unfold get_tourist_places, get_tourist_places_body, slice_to. simpl.
    fold elements. rewrite Hlen.
    destruct (limit <? Z.of_nat (size (named_set elements))) eqn:Hlt; [|lia].
    destruct (0 <=? limit) eqn:Hle; [reflexivity | lia]. }
  simpl. rewrite Hplaces. clear Hplaces.
  set (all := collect elements [] ∅) in *.
  assert (Hsorted : StronglySorted (fun p q => key_le (rank p) (rank q))
                      (take (Z.to_nat limit) (sorted rank all))).
  { apply StronglySorted_take_le, sorted_StronglySorted. }
  assert (Helem : forall p, p ∈ take (Z.to_nat limit) (sorted rank all) ->
      exists e, e ∈ elements /\ tags_of e !! "name" = Some (p_name p) /\
                p = place_info (p_name p) e).
  { intros p Hp. apply (subseteq_take _ _ _) in Hp.
    rewrite (sorted_perm rank all) in Hp.
    apply collect_elem_of in Hp as [Hp|(e & He & Hname & _ & Hp)].
    - now apply elem_of_nil in Hp.
    - now exists e. }
  split; [|split; [|split; [|split]]].
  - rewrite length_take, (Permutation_length (sorted_perm rank all)), Hlen. lia.
  - rewrite fmap_take. eapply sublist_NoDup; [|apply sublist_take].
    rewrite (sorted_perm rank all).
    apply collect_NoDup; [constructor|].
    intros p Hp. now apply elem_of_nil in Hp.
  - exact Hsorted.
  - intros i j p q Hij Hi Hj Hq.
    pose proof (StronglySorted_lookup_le _ _ _ _ _ _ Hsorted Hij Hi Hj) as Hle.
    apply key_le_first in Hle.
    destruct (Helem p (list_elem_of_lookup_2 _ _ _ Hi)) as (ep & _ & _ & Hp).
    destruct (Helem q (list_elem_of_lookup_2 _ _ _ Hj)) as (eq & _ & _ & Hq').
    rewrite Hp. rewrite Hq' in Hq, Hle. rewrite Hp in Hle.
    apply place_info_reference in Hq. apply place_info_reference. lia.
  - exact Helem.
Qed.

Example sample_places_names :
  p_name <$> get_tourist_places 2 (Ok (Some sample_elements)) = ["Louvre"; "Tuileries"]
  /\ p_name <$> get_tourist_places 8 (Ok (Some sample_elements))
     = ["Cafe Bleu"; "Louvre"; "Tuileries"].
Proof. split; vm_compute; reflexivity. Qed.

Lemma get_tourist_places_ranked_witness :
  0 <= 2 /\ 2 < Z.of_nat (size (named_set sample_elements)) /\
  Z.of_nat (length (get_tourist_places 2 (Ok (Some sample_elements)))) = 2 /\
  NoDup (p_name <$> get_tourist_places 2 (Ok (Some sample_elements))).
Proof.
  assert (H0 : 0 <= 2) by lia.
  assert (H1 : 2 < Z.of_nat (size (named_set sample_elements)))
    by (vm_compute; reflexivity).
  destruct (get_tourist_places_ranked 2 (Some sample_elements) H0 H1) as (Hlen & Hnd & _).
  exact (conj H0 (conj H1 (conj Hlen Hnd))).
Defined.

(** Where no tag value is empty, "the tag is true" and "the tag is
    there" are the same, so the first component of [rank] is 0 exactly
    for the records with a wikipedia or website key. *)
Lemma rank_reference_present (p : place) :
  map_Forall (fun _ v => v <> "") (p_tags p) ->
  (rank p).1.1.1.1 = 0%nat <->
  is_Some (p_tags p !! "wikipedia") \/ is_Some (p_tags p !! "website").
Proof.
  intros Hvalues. unfold rank. simpl.
  assert (Htruthy : forall k, Py.truthy_opt (p_tags p !! k) = true <-> is_Some (p_tags p !! k)).
  { intros k. destruct (p_tags p !! k) as [v|] eqn:Hk; simpl.
    - apply Hvalues in Hk. destruct v; [congruence|]. split; eauto.
    - split; [discriminate | intros [? [=]]]. }
  rewrite <- !Htruthy.
  destruct (Py.truthy_opt (p_tags p !! "wikipedia")),
           (Py.truthy_opt (p_tags p !! "website")); simpl; intuition congruence.
Qed.

Lemma coords_of_center (e : element) (c : gmap string float) :
  el_lat e = None -> el_center e = Some c -> c <> ∅ ->
  coords_of e = (c !! "lat", c !! "lon").
Proof.
  intros Hlat Hc Hne. unfold coords_of, center_truthy. rewrite Hlat, Hc. simpl.
  now rewrite bool_decide_eq_false_2.
Qed.

Lemma coords_of_direct (e : element) (x : float) :
  el_lat e = Some x -> Py.truthy_float x = true ->
  coords_of e = (Some x, el_lon e).
Proof.
  intros Hlat Hx. unfold coords_of. rewrite Hlat. simpl. now rewrite Hx.
Qed.

Lemma coords_of_no_center (e : element) :
  center_truthy e = false -> coords_of e = (el_lat e, el_lon e).
Proof.
  intros Hc. unfold coords_of. rewrite Hc. now rewrite andb_false_r.
Qed.

(** The centre replaces the coordinates whenever the latitude is not
    true, and a latitude of zero is not true.  An element with both a
    latitude of zero and a centre, which the output mode [out center]
    does not give, would carry the centre: the marker below has the
    coordinates (0.0, 9.5) and a centre (1.5, 2.5). *)
Theorem zero_latitude_takes_center :
  el_lat equator_marker = Some 0%float /\
  el_lon equator_marker = Some 9.5%float /\
  (fun p => (p_name p, p_lat p, p_lon p))
    <$> get_tourist_places 8 (Ok (Some [equator_marker]))
  = [("Equator Marker", Some 1.5%float, Some 2.5%float)].
Proof. repeat split; vm_compute; reflexivity. Qed.

(** ** The clients never raise *)

(** C7.  Each client maps every exception of its [try] block to its
    degraded value: [None] for [get_coordinates] and [get_weather]
    ([JNull] stands for [None]), the empty list for
    [get_tourist_places], the placeholder text for [get_travel_tips]
    and [get_itinerary].  This covers a failing request ([Raise e] for
    the reply) and an exception while the reply is processed (the body
    evaluates to [Raise e]).  The clients are total functions whose
    result type has no exception. *)
Theorem clients_never_raise :
  (forall pyfloat response e,
      get_coordinates_body pyfloat response = Raise e ->
      get_coordinates pyfloat response = None) /\
  (forall pyfloat e, get_coordinates pyfloat (Raise e) = None) /\
  (forall e, get_weather (Raise e) = JNull) /\
  (forall limit response e,
      get_tourist_places_body limit response = Raise e ->
      get_tourist_places limit response = []) /\
  (forall limit e, get_tourist_places limit (Raise e) = []) /\
  (forall e, get_travel_tips (Raise e) = TIPS_UNAVAILABLE) /\
  (forall e, get_itinerary (Raise e) = ITINERARY_UNAVAILABLE).
Proof.
  repeat split; try (intros; reflexivity).
  - intros pyfloat response e H. unfold get_coordinates. rewrite H. now destruct e.
  - intros pyfloat e. now destruct e.
  - intros e. now destruct e.
  - intros limit response e H. unfold get_tourist_places. rewrite H. now destruct e.
  - intros limit e. now destruct e.
Qed.

Lemma clients_never_raise_witness :
  get_coordinates_body sample_float (Ok [broken_candidate]) = Raise (KeyError "lat") /\
  get_coordinates sample_float (Ok [broken_candidate]) = None.
Proof.
  assert (H : get_coordinates_body sample_float (Ok [broken_candidate])
              = Raise (KeyError "lat")) by reflexivity.
  exact (conj H (proj1 clients_never_raise sample_float _ _ H)).
Defined.

(** ** The patterns *)

Lemma star_greedy_inv {R : Type} (p : ascii -> bool) (s : string)
  (k : string -> option R) (x : R) :
  star_greedy p s k = Some x ->
  exists s', k s' = Some x /\ (String.length s' <= String.length s)%nat.
Proof.
  induction s as [|c s IH]; simpl; intros H.
  - exists "". auto.
  - destruct (p c); [|exists (String c s); auto].
    destruct (star_greedy p s k) as [y|] eqn:Hrest.
    + injection H as ->. destruct (IH eq_refl) as (s' & Hk & Hlen).
      exists s'. split; [assumption | simpl; lia].
    + exists (String c s). auto.
Qed.

Lemma star_lazy_inv {R : Type} (p : ascii -> bool) (s : string)
  (k : string -> option R) (x : R) :
  star_lazy p s k = Some x ->
  exists s', k s' = Some x /\ (String.length s' <= String.length s)%nat.
Proof.
  induction s as [|c s IH]; simpl; intros H.
  - destruct (k "") eqn:Hk; [|discriminate]. exists "". rewrite Hk. auto.
  - destruct (k (String c s)) eqn:Hk.
    + exists (String c s). rewrite Hk. auto.
    + destruct (p c); [|discriminate].
      destruct (IH H) as (s' & Hk' & Hlen).
      exists s'. split; [assumption | simpl; lia].
Qed.

Lemma lit_match_length (text s s' : string) :
  lit_match text s = Some s' -> (String.length s' <= String.length s)%nat.
Proof.
  revert s. induction text as [|a text IH]; intros s; simpl.
  - now intros [= ->].
  - destruct s as [|c s]; [discriminate|].
    destruct (ieq a c); [|discriminate].
    intros H%IH. simpl. lia.
Qed.

(** A match ends in its continuation, on a suffix of the subject, and
    a pattern without a group hands the capture on unchanged. *)
Lemma rmatch_inv (r : regex) :
  forall (R : Type) (n0 : nat) (s : string) (cap : option string)
         (k : string -> option string -> option R) (x : R),
    rmatch n0 r s cap k = Some x ->
    exists s' cap', k s' cap' = Some x /\
                    (String.length s' <= String.length s)%nat /\
                    (groupless r = true -> cap' = cap).
Proof.
  induction r as [text | p | greedy p | r1 IH1 r2 IH2 | r1 IH1 r2 IH2 | | | r1 IH1];
    intros R n0 s cap k x H; simpl in H.
  - destruct (lit_match text s) as [s'|] eqn:Hlit; [|discriminate].
    exists s', cap. eauto using lit_match_length.
  - destruct s as [|c s]; [discriminate|].
    destruct (p c); [|discriminate].
    exists s, cap. simpl. auto.
  - destruct greedy.
    + apply star_greedy_inv in H as (s' & Hk & Hlen). exists s', cap. auto.
    + apply star_lazy_inv in H as (s' & Hk & Hlen). exists s', cap. auto.
  - apply IH1 in H as (s1 & cap1 & H & Hlen1 & Hcap1).
    apply IH2 in H as (s2 & cap2 & H & Hlen2 & Hcap2).
    exists s2, cap2. split; [assumption|]. split; [lia|].
    simpl. intros [H1 H2]%andb_true_iff. rewrite Hcap2, Hcap1; auto.
  - destruct (rmatch n0 r1 s cap k) as [y|] eqn:H1.
    + injection H as ->. apply IH1 in H1 as (s' & cap' & H & Hlen & Hcap).
      exists s', cap'. split; [assumption|]. split; [assumption|].
      simpl. intros [H1 H2]%andb_true_iff. auto.
    + apply IH2 in H as (s' & cap' & H & Hlen & Hcap).
      exists s', cap'. split; [assumption|]. split; [assumption|].
      simpl. intros [H1' H2]%andb_true_iff. auto.
  - destruct (String.length s =? n0)%nat; [|discriminate].
    exists s, cap. auto.
  - destruct s as [|c [|c' s]]; try discriminate.
    + exists "", cap. auto.
    + destruct (Py.ord c =? 10)%nat; [|discriminate].
      exists (String c ""), cap. auto.
  - apply IH1 in H as (s1 & cap1 & H & Hlen1 & _).
    eexists s1, _. split; [exact H|]. split; [assumption|]. discriminate.
Qed.

Lemma prefix_cons (n : nat) (c : ascii) (s : string) :
  prefix (S n) (String c s) = String c (prefix n s).
Proof. reflexivity. Qed.

Lemma NAME_captures_name : captures_name NAME.
Proof.
  intros R n0 s cap k x H. unfold NAME in H. simpl in H.
  destruct s as [|c s]; [discriminate|].
  destruct (letter c) eqn:Hc; [|discriminate].
  destruct s as [|c2 s]; [discriminate|].
  destruct (letter_or_space c2); [|discriminate].
  apply star_lazy_inv in H as (s' & H & Hlen).
  replace (String.length (String c (String c2 s)) - String.length s')%nat
    with (S (String.length (String c2 s) - String.length s')) in H by (simpl; lia).
  rewrite prefix_cons in H. eauto.
Qed.

Lemma captures_name_after (r1 r2 : regex) :
  captures_name r2 -> captures_name (Cat r1 r2).
Proof.
  intros H2 R n0 s cap k x H. simpl in H.
  apply rmatch_inv in H as (s1 & cap1 & H & _). now apply H2 in H.
Qed.

Lemma captures_name_before (r1 r2 : regex) :
  captures_name r1 -> groupless r2 = true -> captures_name (Cat r1 r2).
Proof.
  intros H1 H2 R n0 s cap k x H. simpl in H.
  apply H1 in H as (s1 & c & g & H & Hc).
  apply rmatch_inv in H as (s2 & cap2 & H & _ & Hcap).
  rewrite (Hcap H2) in H. eauto.
Qed.

Lemma patterns_capture_name : Forall captures_name patterns.
Proof.
  repeat constructor;
    repeat first [ apply captures_name_before;
                     [exact NAME_captures_name | reflexivity]
                 | apply captures_name_after ].
Qed.

Lemma search_from_captures (r : regex) (n0 : nat) (s : string) (m : option string) :
  captures_name r -> search_from n0 r s = Some m ->
  exists c g, m = Some (String c g) /\ letter c = true.
Proof.
  intros Hr. induction s as [|a s IH]; simpl.
  - destruct (rmatch n0 r "" None _) as [y|] eqn:H; [|discriminate].
    intros [= ->]. apply Hr in H as (_ & c & g & [= <-] & Hc). eauto.
  - destruct (rmatch n0 r (String a s) None _) as [y|] eqn:H; [|exact IH].
    intros [= ->]. apply Hr in H as (_ & c & g & [= <-] & Hc). eauto.
Qed.

(** ** Place names *)

Lemma letter_not_space (c : ascii) : letter c = true -> Py.isspace c = false.
Proof.
  destruct c as [[] [] [] [] [] [] [] []]; vm_compute; congruence.
Qed.

Lemma rstrip_by_keeps (p : ascii -> bool) (c : ascii) (s : string) :
  p c = false -> Py.truthy (Py.rstrip_by p (String c s)) = true.
Proof.
  intros Hc. simpl. destruct (Py.rstrip_by p s); [now rewrite Hc | reflexivity].
Qed.

Lemma strip_name_truthy (c : ascii) (g : string) :
  letter c = true -> Py.truthy (Py.strip (String c g)) = true.
Proof.
  intros Hc%letter_not_space. unfold Py.strip, Py.strip_by.
  simpl. rewrite Hc. now apply rstrip_by_keeps.
Qed.

Lemma first_pattern_none (ps : list regex) (user_input : string) :
  first_pattern ps user_input = None <->
  Forall (fun q => search q user_input = None) ps.
Proof.
  induction ps as [|q ps IH]; simpl.
  - split; [constructor | reflexivity].
  - destruct (search q user_input) eqn:Hq.
    + split; [discriminate|]. intros H. inversion H; congruence.
    + rewrite IH. split; [now constructor | now inversion 1].
Qed.

Lemma first_pattern_some (ps : list regex) (user_input : string) (r : result string) :
  first_pattern ps user_input = Some r ->
  exists (earlier : list regex) (pattern : regex) (later : list regex) (m : option string),
    ps = (earlier ++ pattern :: later)%list /\
    Forall (fun q => search q user_input = None) earlier /\
    search pattern user_input = Some m /\
    r = group1_strip m.
Proof.
  induction ps as [|q ps IH]; simpl; [discriminate|].
  destruct (search q user_input) as [m|] eqn:Hq.
  - intros [= <-]. exists [], q, ps, m. repeat split; auto.
  - intros (earlier & pattern & later & m & -> & Hnone & Hm & ->)%IH.
    exists (q :: earlier), pattern, later, m. repeat split; auto.
Qed.

(** A pattern that matches yields a name, and the name is not empty. *)
Lemma first_pattern_name (user_input : string) (r : result string) :
  first_pattern patterns user_input = Some r ->
  exists place, r = Ok place /\ Py.truthy place = true /\ by_pattern user_input place.
Proof.
  intros H.
  destruct (first_pattern_some _ _ _ H)
    as (earlier & pattern & later & m & Hps & Hnone & Hm & ->).
  assert (Hcap : captures_name pattern).
  { pose proof patterns_capture_name as Hall. rewrite Hps in Hall.
    apply Forall_app in Hall as [_ Hall]. now inversion Hall. }
  destruct (search_from_captures _ _ _ _ Hcap Hm) as (c & g & -> & Hc).
  exists (Py.strip (String c g)). split; [reflexivity|].
  split; [now apply strip_name_truthy|].
  exists earlier, pattern, later, (String c g). auto.
Qed.

Lemma is_capitalized_truthy (w : string) : is_capitalized w = true -> Py.truthy w = true.
Proof. now destruct w. Qed.

Lemma join_truthy (sep w : string) (ws : list string) :
  Py.truthy w = true -> Py.truthy (Py.join sep (w :: ws)) = true.
Proof.
  intros Hw. simpl. destruct ws; [assumption | now apply truthy_app_l].
Qed.

Lemma capitalized_words_truthy (user_input : string) :
  capitalized_words user_input <> [] ->
  Py.truthy (Py.join " " (capitalized_words user_input)) = true.
Proof.
  unfold capitalized_words. intros Hne.
  destruct (filter _ _) as [|w ws] eqn:Hf; [congruence|].
  apply join_truthy, is_capitalized_truthy.
  assert (Hw : w ∈ filter (fun w => is_capitalized w = true) (Py.split user_input))
    by (rewrite Hf; apply list_elem_of_here).
  now apply list_elem_of_filter in Hw as [Hw _].
Qed.

(** [extract_place_name] never raises: group 1 takes part in every
    match of the four patterns. *)
Lemma extract_place_name_checked_ok (user_input : string) :
  extract_place_name_checked user_input = Ok (extract_place_name user_input).
Proof.
  unfold extract_place_name, extract_place_name_checked.
  destruct (first_pattern patterns user_input) as [r|] eqn:H.
  - apply first_pattern_name in H as (place & -> & _). reflexivity.
  - now destruct (capitalized_words user_input).
Qed.

Lemma extract_place_name_extracted (user_input : string) :
  extracted user_input (extract_place_name user_input).
Proof.
  unfold extract_place_name, extract_place_name_checked, extracted.
  destruct (first_pattern patterns user_input) as [r|] eqn:H.
  - apply first_pattern_name in H as (place & -> & _ & Hby). now left.
  - apply first_pattern_none in H. right.
    destruct (capitalized_words user_input) as [|w ws] eqn:Hws; [now right|].
    left. repeat split; [assumption | discriminate].
Qed.

(** The place found is empty only for the empty input. *)
Lemma extract_place_name_truthy (user_input : string) :
  Py.truthy (extract_place_name user_input) = Py.truthy user_input.
Proof.
  destruct user_input as [|c s]; [reflexivity|].
  unfold extract_place_name, extract_place_name_checked.
  destruct (first_pattern patterns (String c s)) as [r|] eqn:H.
  - apply first_pattern_name in H as (place & -> & Hplace & _). exact Hplace.
  - destruct (capitalized_words (String c s)) as [|w ws] eqn:Hws; [reflexivity|].
    change (Py.truthy (Py.join " " (w :: ws)) = true).
    rewrite <- Hws. apply capitalized_words_truthy. congruence.
Qed.

(** ** The fallback of [understand_query] *)

Lemma understand_query_fallback (user_input : string) (e : exn) :
  understand_query user_input (Raise e) = fallback_analysis user_input.
Proof. now destruct e. Qed.

(** C9, as it is worded, fails: for the input "paris" no pattern
    matches and no token is capitalized, so the place worded in the
    claim is the empty join and the query would be invalid; the code
    takes the input itself as the place and the query as valid. *)
Lemma fallback_place_counterexample :
  understand_query "paris" (Raise JSONDecodeError)
    = {| a_place := Some "paris"; a_intents := Some ["weather"; "places"];
         a_days := Some 1; a_is_valid_query := Some true |} /\
  spec_fallback_analysis "paris"
    = {| a_place := Some ""; a_intents := Some ["weather"; "places"];
         a_days := Some 1; a_is_valid_query := Some false |} /\
  understand_query "paris" (Raise JSONDecodeError) <> spec_fallback_analysis "paris".
Proof.
  assert (H1 : understand_query "paris" (Raise JSONDecodeError)
    = {| a_place := Some "paris"; a_intents := Some ["weather"; "places"];
         a_days := Some 1; a_is_valid_query := Some true |})
    by (vm_compute; reflexivity).
  assert (H2 : spec_fallback_analysis "paris"
    = {| a_place := Some ""; a_intents := Some ["weather"; "places"];
         a_days := Some 1; a_is_valid_query := Some false |})
    by (vm_compute; reflexivity).
  split; [exact H1|]. split; [exact H2|].
  rewrite H1, H2. discriminate.
Qed.

(** C9, amended.  When the reply cannot be decoded (any exception of
    the [try] block), the query is a greeting exactly when its
    lowercased, stripped text is one of hi, hello, hey, thanks, thank
    you, bye, goodbye.  A greeting yields no place, the intents
    [greeting], one day, and an invalid query.  Any other input yields
    the intents [weather, places], one day, and as place what the first
    matching pattern extracts, or else the capitalized tokens that are
    no stop words, joined, or else, when there is no such token, the
    input itself; the query is valid exactly when that place is not
    empty. *)
Theorem fallback_analysis_spec (user_input : string) (e : exn) :
  (is_greeting user_input = true <->
   Py.strip (Py.lower user_input) ∈ GREETING_WORDS) /\
  if is_greeting user_input
  then understand_query user_input (Raise e)
       = {| a_place := None; a_intents := Some ["greeting"];
            a_days := Some 1; a_is_valid_query := Some false |}
  else exists place,
       understand_query user_input (Raise e)
       = {| a_place := Some place; a_intents := Some ["weather"; "places"];
            a_days := Some 1; a_is_valid_query := Some (Py.truthy place) |} /\
       extracted user_input place.
Proof.
  split; [apply bool_decide_eq_true|].
  rewrite understand_query_fallback. unfold fallback_analysis.
  destruct (is_greeting user_input); simpl; [reflexivity|].
  exists (extract_place_name user_input).
  split; [reflexivity | apply extract_place_name_extracted].
Qed.

Example fallback_examples :
  a_place (understand_query "What's the weather in Paris?" (Raise JSONDecodeError))
    = Some "Paris" /\
  a_place (understand_query "I want Sushi" (Raise OtherException)) = Some "Sushi" /\
  understand_query "  Thank You " (Raise JSONDecodeError)
    = {| a_place := None; a_intents := Some ["greeting"];
         a_days := Some 1; a_is_valid_query := Some false |}.
Proof. repeat split; vm_compute; reflexivity. Qed.

(** C10.  [extract_place_name] returns a string for every input: it
    never raises and never returns [None].  For an input that no
    pattern matches and that has no capitalized token outside the stop
    words it returns the input unchanged; so in the fallback such an
    input, unless it is empty or a greeting, is a valid query whose
    place is the whole text.  (Any input that is neither empty nor a
    greeting is a valid query in the fallback, whatever strategy finds
    its place.) *)
Theorem extract_place_name_raw_input (user_input : string) :
  extract_place_name_checked user_input = Ok (extract_place_name user_input) /\
  (no_pattern user_input -> capitalized_words user_input = [] ->
   extract_place_name user_input = user_input /\
   (user_input <> "" -> is_greeting user_input = false -> forall e,
      understand_query user_input (Raise e)
      = {| a_place := Some user_input; a_intents := Some ["weather"; "places"];
           a_days := Some 1; a_is_valid_query := Some true |})) /\
  (user_input <> "" -> is_greeting user_input = false -> forall e,
     a_is_valid_query (understand_query user_input (Raise e)) = Some true).
Proof.
  split; [apply extract_place_name_checked_ok|]. split.
  - intros Hnone%first_pattern_none Hcaps.
    assert (Hraw : extract_place_name user_input = user_input).
    { unfold extract_place_name, extract_place_name_checked.
      now rewrite Hnone, Hcaps. }
    split; [exact Hraw|].
    intros Hne%truthy_nonempty Hgreet e.
    rewrite understand_query_fallback. unfold fallback_analysis.
    now rewrite Hgreet, Hraw, Hne.
  - intros Hne%truthy_nonempty Hgreet e.
    rewrite understand_query_fallback. unfold fallback_analysis.
    now rewrite Hgreet, extract_place_name_truthy, Hne.
Qed.

Lemma extract_place_name_raw_input_witness :
  no_pattern "bengalururu" /\ capitalized_words "bengalururu" = [] /\
  extract_place_name "bengalururu" = "bengalururu" /\
  understand_query "bengalururu" (Raise JSONDecodeError)
  = {| a_place := Some "bengalururu"; a_intents := Some ["weather"; "places"];
       a_days := Some 1; a_is_valid_query := Some true |}.
Proof.
  assert (Hnone : no_pattern "bengalururu") by (repeat constructor).
  assert (Hcaps : capitalized_words "bengalururu" = []) by reflexivity.
  destruct (proj1 (proj2 (extract_place_name_raw_input "bengalururu")) Hnone Hcaps)
    as [Hraw Hvalid].
  refine (conj Hnone (conj Hcaps (conj Hraw (Hvalid _ _ JSONDecodeError)))).
  - discriminate.
  - reflexivity.
Defined.

(** ** [process_query] *)

Lemma bind_perform {A B : Type} (c : call) (a : A) (k : A -> traced B) :
  (x ← perform c a; k x) = Traced (value (k a)) (c :: calls (k a)).
Proof. reflexivity. Qed.

Lemma rejects_true (intents : list string) (place_name : option string) (is_valid : bool) :
  rejects intents place_name is_valid = true <->
  "greeting" ∈ intents \/ place_name = None \/ place_name = Some "" \/ is_valid = false.
Proof.
  unfold rejects, has.
  rewrite !orb_true_iff, !negb_true_iff, bool_decide_eq_true.
  destruct place_name as [[|c s]|]; simpl; intuition congruence.
Qed.

Lemma process_query_rejected (w : world) (user_input : string)
  (search_radius max_places : Z) :
  let query_analysis := understand_query user_input (chat_intent w user_input) in
  rejects (default ["weather"; "places"] (a_intents query_analysis))
          (a_place query_analysis)
          (default true (a_is_valid_query query_analysis)) = true ->
  process_query w user_input search_radius max_places
    = Traced (Failure true HELP_MESSAGE) [CallIntent user_input].
Proof.
  intros query_analysis Hreject. unfold process_query. rewrite bind_perform.
  fold query_analysis. now rewrite Hreject.
Qed.

(** A greeting word is turned away whenever the reply cannot be
    decoded, whatever the radius and the number of places. *)
Lemma greeting_word_rejected (w : world) (user_input : string)
  (search_radius max_places : Z) (e : exn) :
  chat_intent w user_input = Raise e ->
  is_greeting user_input = true ->
  process_query w user_input search_radius max_places
    = Traced (Failure true HELP_MESSAGE) [CallIntent user_input].
Proof.
  intros Hraise Hgreet. apply process_query_rejected.
  rewrite Hraise, understand_query_fallback. unfold fallback_analysis.
  now rewrite Hgreet.
Qed.

(** When the analysis of the query, its intents a list, has the intent
    [greeting], or no place (none, or the empty text), or is marked
    invalid, [process_query] returns the failure bundle with
    [is_greeting] true and the fixed help message, after the one call
    that analyses the query and no other; so the outcome is the same
    for every search radius and every number of places. *)
Theorem greeting_short_circuit (w : world) (user_input : string)
  (search_radius max_places : Z) :
  let query_analysis := understand_query user_input (chat_intent w user_input) in
  "greeting" ∈ default ["weather"; "places"] (a_intents query_analysis)
  \/ a_place query_analysis = None \/ a_place query_analysis = Some ""
  \/ default true (a_is_valid_query query_analysis) = false ->
  process_query w user_input search_radius max_places
    = Traced (Failure true HELP_MESSAGE) [CallIntent user_input] /\
  success (value (process_query w user_input search_radius max_places)) = false /\
  forall radius' places' : Z,
    process_query w user_input radius' places'
    = process_query w user_input search_radius max_places.
Proof.
  intros query_analysis Hreject%rejects_true.
  rewrite !(process_query_rejected w user_input _ _ Hreject).
  split; [reflexivity|]. split; [reflexivity|].
  intros radius' places'. now apply process_query_rejected.
Qed.

Lemma greeting_short_circuit_witness :
  process_query (sample_world (Raise JSONDecodeError) (Raise Timeout) (Raise Timeout))
    "Hello" 5000 20
  = Traced (Failure true HELP_MESSAGE) [CallIntent "Hello"].
Proof.
  apply (greeting_short_circuit
           (sample_world (Raise JSONDecodeError) (Raise Timeout) (Raise Timeout))
           "Hello" 5000 20).
  left. vm_compute. apply list_elem_of_here.
Defined.

(** *** Replies whose intents are not a list *)

Lemma normalize_reply_of (a : analysis) :
  normalize_reply (reply_of a) = reply_of (normalize_place a).
Proof.
  unfold normalize_reply, normalize_place. simpl.
  now destruct (bool_decide (a_place a ∈ _)).
Qed.

Lemma understand_query_reply_of (user_input : string) (decoded : result analysis) :
  understand_query_reply user_input (a ← decoded; mret (reply_of a))
  = reply_of (understand_query user_input decoded).
Proof.
  destruct decoded as [a|e]; simpl.
  - apply normalize_reply_of.
  - now destruct e.
Qed.

(** On a reply whose intents are a list, or are not given,
    [process_query_reply] is [process_query]. *)
Lemma process_query_reply_typed (w : world) (user_input : string)
  (search_radius max_places : Z) :
  process_query_reply w (a ← chat_intent w user_input; mret (reply_of a))
    user_input search_radius max_places
  = Traced (Ok (value (process_query w user_input search_radius max_places)))
      (calls (process_query w user_input search_radius max_places)).
Proof.
  unfold process_query_reply, process_query.
  rewrite !bind_perform, understand_query_reply_of.
  set (query_analysis := understand_query user_input (chat_intent w user_input)).
  simpl reply_intents. simpl reply_place. simpl reply_days. simpl reply_is_valid_query.
  assert (E : default (IntentList ["weather"; "places"])
                (IntentList <$> a_intents query_analysis)
              = IntentList (default ["weather"; "places"] (a_intents query_analysis)))
    by now destruct (a_intents query_analysis).
  rewrite E.
  destruct (rejects _ _ _); [reflexivity|].
  rewrite !bind_perform.
  destruct (get_coordinates _ _); reflexivity.
Qed.

(** Past the test of the intents, the guard is the one of
    [process_query]. *)
Lemma process_query_reply_rejected (w : world) (decoded : result reply)
  (user_input : string) (search_radius max_places : Z) (names : list string) :
  let query_analysis := understand_query_reply user_input decoded in
  default (IntentList ["weather"; "places"]) (reply_intents query_analysis)
  = IntentList names ->
  rejects names (reply_place query_analysis)
    (default true (reply_is_valid_query query_analysis)) = true ->
  process_query_reply w decoded user_input search_radius max_places
  = Traced (Ok (Failure true HELP_MESSAGE)) [CallIntent user_input].
Proof.
  intros query_analysis Hlist Hreject. unfold process_query_reply.
  rewrite bind_perform. fold query_analysis. cbv zeta. now rewrite Hlist, Hreject.
Qed.

(** C3.  The guard tests ['greeting' in intents] first, and that test
    raises [TypeError] on intents that are [null]: for a decoded reply
    with no place and with [null] for its intents, whatever its days
    and its validity mark, the analysis yields no place and
    [process_query] raises after the one call that analyses the query;
    it returns no bundle. *)
Theorem null_intents_raise (w : world) (user_input : string) (days : option Z)
  (is_valid : option bool) (search_radius max_places : Z) :
  let decoded := {| reply_place := None; reply_intents := Some IntentNull;
                    reply_days := days; reply_is_valid_query := is_valid |} in
  reply_place (understand_query_reply user_input (Ok decoded)) = None /\
  process_query_reply w (Ok decoded) user_input search_radius max_places
  = Traced (Raise OtherException) [CallIntent user_input] /\
  value (process_query_reply w (Ok decoded) user_input search_radius max_places)
  <> Ok (Failure true HELP_MESSAGE).
Proof. repeat split. discriminate. Qed.

Lemma not_found_message_place (place_name suggestion : string) :
  Py.contains place_name (not_found_message place_name suggestion).
Proof.
  unfold not_found_message.
  destruct (_ && _); rewrite !append_assoc;
    apply (contains_app_r _ "I couldn't find a place called '"),
          contains_app_l, contains_refl.
Qed.

(** C6.  For a query that passes the greeting guard with the place
    [place_name], when the geocoding client returns [None],
    [process_query] returns the failure bundle with [is_greeting]
    false, after asking once for a spelling suggestion.  The message
    contains the place name.  When the suggestion is not empty and
    differs from the place name, the message contains the clause
    "Did you mean **suggestion**"; when it equals the place name, as it
    does when the suggestion call raises, the message ends with the
    general advice to check the spelling. *)
Theorem place_not_found (w : world) (user_input : string)
  (search_radius max_places : Z) (place_name : string) :
  let query_analysis := understand_query user_input (chat_intent w user_input) in
  let suggestion := _get_spelling_suggestions place_name (chat_spelling w place_name) in
  rejects (default ["weather"; "places"] (a_intents query_analysis))
          (a_place query_analysis)
          (default true (a_is_valid_query query_analysis)) = false ->
  a_place query_analysis = Some place_name ->
  get_coordinates (py_float w) (http_geocoding w place_name) = None ->
  exists message,
    process_query w user_input search_radius max_places
      = Traced (Failure false message)
          [CallIntent user_input; CallGeocoding place_name; CallSpelling place_name] /\
    Py.contains place_name message /\
    (suggestion <> "" -> suggestion <> place_name ->
     Py.contains ("Did you mean **" ++ suggestion ++ "**") message) /\
    (suggestion = place_name ->
     message = "I couldn't find a place called '" ++ place_name ++ "'." ++ CHECK_SPELLING) /\
    (forall e, chat_spelling w place_name = Raise e -> suggestion = place_name).
Proof.
  intros query_analysis suggestion Hpass Hplace Hgeo.
  exists (not_found_message place_name suggestion).
  split; [|split; [|split; [|split]]].
  - unfold process_query. rewrite bind_perform. fold query_analysis.
    rewrite Hpass, Hplace. simpl default. rewrite bind_perform, Hgeo.
    reflexivity.
  - apply not_found_message_place.
  - intros Hne%truthy_nonempty Hdiff. unfold not_found_message.
    rewrite Hne, bool_decide_eq_false_2 by assumption. simpl andb. cbv iota.
    exists ("I couldn't find a place called '" ++ place_name ++ "'."
            ++ Py.newline ++ Py.newline ++ "ðŸ’¡ "),
           "? Try searching for that instead!".
    unfold DID_YOU_MEAN, TRY_THAT. rewrite !append_assoc. reflexivity.
  - intros Heq. unfold not_found_message.
    rewrite Heq, bool_decide_eq_true_2, andb_false_r by reflexivity.
    now rewrite !append_assoc.
  - intros e He. unfold suggestion. now rewrite He.
Qed.

Lemma place_not_found_witness :
  exists message,
    process_query (sample_world (Ok trip_to_bangalore) (Ok " 'Bangalore' ") (Ok []))
      "bengalururu trip" 30000 8
    = Traced (Failure false message)
        [CallIntent "bengalururu trip"; CallGeocoding "bengalururu";
         CallSpelling "bengalururu"] /\
    Py.contains ("Did you mean **" ++ "Bangalore" ++ "**") message.
Proof.
  destruct (place_not_found
              (sample_world (Ok trip_to_bangalore) (Ok " 'Bangalore' ") (Ok []))
              "bengalururu trip" 30000 8 "bengalururu"
              eq_refl eq_refl eq_refl)
    as (message & Hrun & _ & Hmean & _).
  exists message. split; [exact Hrun|].
  apply Hmean; vm_compute; discriminate.
Defined.

(** C2.  For a query that passes the greeting guard and whose place is
    geocoded to [g], [process_query] succeeds, and
    - asks for the weather exactly when the intents contain [weather]
      or [general];
    - asks for the points of interest exactly when they contain
      [places], [general] or [itinerary];
    - asks for tips exactly when they contain [tips] and the data
      mapping holds a true [weather] entry and a true [places] entry;
    - asks for an itinerary exactly when they contain [itinerary] and
      the data mapping holds a true [places] entry;
    each at most once.  The data mapping has the key [weather]
    ([places]) exactly when the fetch was made and what it returned is
    true, that is, neither [None] nor empty; it has the key [tips]
    ([itinerary]) exactly when the tips (the itinerary) were asked
    for. *)
Theorem aggregation_follows_intents (w : world) (user_input : string)
  (search_radius max_places : Z) (place_name : string) (g : geo) :
  let query_analysis := understand_query user_input (chat_intent w user_input) in
  let intents := default ["weather"; "places"] (a_intents query_analysis) in
  let weather_data :=
    get_weather (http_weather w (geo_lat g) (geo_lon g) DEFAULT_FORECAST_DAYS) in
  let places_data :=
    get_tourist_places max_places
      (http_places w (geo_lat g) (geo_lon g) search_radius max_places) in
  let out := process_query w user_input search_radius max_places in
  let data := bundle_data (value out) in
  rejects intents (a_place query_analysis)
          (default true (a_is_valid_query query_analysis)) = false ->
  a_place query_analysis = Some place_name ->
  get_coordinates (py_float w) (http_geocoding w place_name) = Some g ->
  success (value out) = true /\
  count_calls is_weather_call (calls out)
    = (if has "weather" intents || has "general" intents then 1 else 0)%nat /\
  count_calls is_places_call (calls out)
    = (if has "places" intents || has "general" intents || has "itinerary" intents
       then 1 else 0)%nat /\
  count_calls is_tips_call (calls out)
    = (if has "tips" intents && weather_truthy data && places_truthy data
       then 1 else 0)%nat /\
  count_calls is_itinerary_call (calls out)
    = (if has "itinerary" intents && places_truthy data then 1 else 0)%nat /\
  d_weather data
    = (if (has "weather" intents || has "general" intents) && json_truthy weather_data
       then Some weather_data else None) /\
  d_places data
    = (if (has "places" intents || has "general" intents || has "itinerary" intents)
          && bool_decide (places_data <> [])
       then Some places_data else None) /\
  present (d_tips data)
    = has "tips" intents && weather_truthy data && places_truthy data /\
  present (d_itinerary data) = has "itinerary" intents && places_truthy data /\
  data_keys data
    = ((if (has "weather" intents || has "general" intents) && json_truthy weather_data
        then ["weather"] else [])
       ++ (if (has "places" intents || has "general" intents || has "itinerary" intents)
              && bool_decide (places_data <> [])
           then ["places"] else [])
       ++ (if has "tips" intents && weather_truthy data && places_truthy data
           then ["tips"] else [])
       ++ (if has "itinerary" intents && places_truthy data
           then ["itinerary"] else []))%list.
Proof.
  intros query_analysis intents weather_data places_data out data Hpass Hplace Hgeo.
  unfold data, out, process_query. rewrite bind_perform.
  fold query_analysis. fold intents.
  rewrite Hpass, Hplace. simpl default. rewrite bind_perform, Hgeo.
  unfold fetch_weather, fetch_places, make_tips, make_itinerary.
  fold weather_data. fold places_data.
  generalize (has "weather" intents) (has "general" intents) (has "places" intents)
             (has "itinerary" intents) (has "tips" intents).
  intros hw hg hp hi ht.
  generalize (chat_tips w place_name) (chat_itinerary w place_name)
             (chat_summary w user_input place_name (geo_display_name g)).
  intros tips_of itinerary_of summary_of.
  destruct places_data as [|p ps]; destruct (json_truthy weather_data) eqn:Hw;
    destruct hw, hg, hp, hi, ht;
    repeat (simpl; unfold weather_truthy, places_truthy; rewrite ?Hw);
    repeat split; reflexivity.
Qed.

Lemma aggregation_follows_intents_witness :
  success (value (process_query
                    (sample_world (Ok weather_in_paris) (Raise Timeout)
                       (Ok [eiffel_tower; paris]))
                    "What's the weather in Paris?" 30000 8)) = true /\
  count_calls is_weather_call
    (calls (process_query
              (sample_world (Ok weather_in_paris) (Raise Timeout)
                 (Ok [eiffel_tower; paris]))
              "What's the weather in Paris?" 30000 8)) = 1%nat.
Proof.
  destruct (aggregation_follows_intents
              (sample_world (Ok weather_in_paris) (Raise Timeout)
                 (Ok [eiffel_tower; paris]))
              "What's the weather in Paris?" 30000 8 "Paris" paris_geo
              eq_refl eq_refl eq_refl)
    as (Hsuccess & Hweather & _).
  exact (conj Hsuccess Hweather).
Defined.

(** The weather query of the specification's scenario: the data
    mapping has the key [weather] and no other. *)
Example weather_in_paris_keys :
  data_keys (bundle_data (value (process_query
      (sample_world (Ok weather_in_paris) (Raise Timeout) (Ok [eiffel_tower; paris]))
      "What's the weather in Paris?" 30000 8))) = ["weather"].
Proof. vm_compute. reflexivity. Qed.

(** A trip query: places and itinerary, no weather and no tips. *)
Example trip_keys :
  data_keys (bundle_data (value (process_query
      (sample_world (Ok trip_to_bangalore) (Raise Timeout) (Ok [paris]))
      "bengalururu trip" 30000 2))) = ["places"; "itinerary"].
Proof. vm_compute. reflexivity. Qed.

(** * Further properties *)

(** ** Points of interest: the whole of [get_tourist_places] *)

Lemma collect_all_length (elements : list element) :
  length (collect elements [] ∅) = size (named_set elements).
Proof.
  rewrite collect_length. simpl. f_equal. apply set_eq. intros n.
  rewrite elem_of_difference, elem_of_empty. tauto.
Qed.

(** What [get_tourist_places] returns is always the first records of
    the ranked list, or the unranked list. *)
Lemma get_tourist_places_shape (limit : Z) (data : option (list element)) :
  let all := collect (default [] data) [] ∅ in
  get_tourist_places limit (Ok data) = all \/
  exists n, get_tourist_places limit (Ok data) = take n (sorted rank all).
Proof.
  unfold get_tourist_places, get_tourist_places_body, slice_to. simpl.
  destruct (limit <? _); [|now left].
  right. destruct (0 <=? limit); eauto.
Qed.

Lemma get_tourist_places_subseteq (limit : Z) (data : option (list element)) (p : place) :
  p ∈ get_tourist_places limit (Ok data) -> p ∈ collect (default [] data) [] ∅.
Proof.
  destruct (get_tourist_places_shape limit data) as [-> | [n ->]]; [auto|].
  intros Hp%(subseteq_take _ _ _). now rewrite sorted_perm in Hp.
Qed.

Lemma get_tourist_places_raise (limit : Z) (e : exn) :
  get_tourist_places limit (Raise e) = [].
Proof. now destruct e. Qed.

Lemma get_tourist_places_length (limit : Z) (data : option (list element)) :
  0 <= limit ->
  Z.of_nat (length (get_tourist_places limit (Ok data)))
  = Z.min limit (Z.of_nat (size (named_set (default [] data)))).
Proof.
  intros Hlimit.
  unfold get_tourist_places, get_tourist_places_body, slice_to. simpl.
  rewrite collect_all_length.
  destruct (limit <? _) eqn:Hlt.
  - destruct (0 <=? limit) eqn:Hle; [|lia].
    rewrite length_take, (Permutation_length (sorted_perm rank _)), collect_all_length.
    lia.
  - rewrite collect_all_length. lia.
Qed.

(** X1.  [get_tourist_places] returns up to [limit] places: for a limit
    that is not negative, as many records as the reply has distinct
    non-empty names, but no more than [limit]; none when the request
    fails. *)
Theorem places_up_to_limit (limit : Z) (response : result (option (list element))) :
  0 <= limit ->
  Z.of_nat (length (get_tourist_places limit response))
  = match response with
    | Ok data => Z.min limit (Z.of_nat (size (named_set (default [] data))))
    | Raise _ => 0
    end.
Proof.
  intros Hlimit. destruct response as [data|e].
  - now apply get_tourist_places_length.
  - now rewrite get_tourist_places_raise.
Qed.

Lemma places_up_to_limit_witness :
  Z.of_nat (length (get_tourist_places 2 (Ok (Some sample_elements)))) = 2 /\
  Z.of_nat (length (get_tourist_places 8 (Ok (Some sample_elements)))) = 3.
Proof.
  split.
  - exact (places_up_to_limit 2 (Ok (Some sample_elements)) ltac:(lia)).
  - exact (places_up_to_limit 8 (Ok (Some sample_elements)) ltac:(lia)).
Defined.

Lemma get_tourist_places_NoDup (limit : Z) (response : result (option (list element))) :
  NoDup (p_name <$> get_tourist_places limit response).
Proof.
  destruct response as [data|e]; [|rewrite get_tourist_places_raise; constructor].
  assert (Hall : NoDup (p_name <$> collect (default [] data) [] ∅)).
  { apply collect_NoDup; [constructor|]. intros p Hp. now apply elem_of_nil in Hp. }
  destruct (get_tourist_places_shape limit data) as [-> | [n ->]]; [exact Hall|].
  rewrite fmap_take. eapply sublist_NoDup; [|apply sublist_take].
  now rewrite (sorted_perm rank _).
Qed.

Lemma get_tourist_places_named (limit : Z) (response : result (option (list element))) :
  Forall (fun p => Py.truthy (p_name p) = true) (get_tourist_places limit response).
Proof.
  destruct response as [data|e]; [|rewrite get_tourist_places_raise; constructor].
  apply Forall_forall. intros p Hp%get_tourist_places_subseteq.
  apply collect_elem_of in Hp as [Hp|(e & _ & _ & Htruthy & _)]; [|exact Htruthy].
  now apply elem_of_nil in Hp.
Qed.

(** X2.  Whatever the limit and the reply, no two returned records have the
    same name and no returned name is empty. *)
Theorem places_names_distinct (limit : Z) (response : result (option (list element))) :
  NoDup (p_name <$> get_tourist_places limit response) /\
  Forall (fun p => Py.truthy (p_name p) = true) (get_tourist_places limit response).
Proof.
  split; [apply get_tourist_places_NoDup | apply get_tourist_places_named].
Qed.

Lemma collect_seen_name (elements : list element) (places : list place)
  (seen_names : gset string) (n : string) (p : place) :
  n ∈ seen_names -> p ∈ collect elements places seen_names -> p_name p = n ->
  p ∈ places.
Proof.
  revert places seen_names.
  induction elements as [|e elements IH]; intros places seen_names Hn Hp Hname; [exact Hp|].
  simpl in Hp.
  destruct (tags_of e !! "name") as [name|]; [|now apply (IH _ _ Hn)].
  destruct (Py.truthy name); simpl in Hp; [|now apply (IH _ _ Hn)].
  destruct (bool_decide (name ∈ seen_names)) eqn:Hseen; simpl in Hp;
    [now apply (IH _ _ Hn)|].
  apply bool_decide_eq_false in Hseen.
  apply IH in Hp; [| now apply elem_of_union_l | assumption].
  apply elem_of_app in Hp as [Hp | ->%list_elem_of_singleton]; [exact Hp|].
  simpl in Hname. congruence.
Qed.

Lemma collect_first_element (earlier later : list element) (e : element)
  (places : list place) (seen_names : gset string) (n : string) (p : place) :
  Forall (fun d => tags_of d !! "name" <> Some n) earlier ->
  tags_of e !! "name" = Some n ->
  n ∉ seen_names ->
  (forall q, q ∈ places -> p_name q <> n) ->
  p ∈ collect (earlier ++ e :: later) places seen_names ->
  p_name p = n ->
  p = place_info n e.
Proof.
  intros Hearlier He. revert places seen_names.
  induction Hearlier as [|d earlier Hd _ IH]; intros places seen_names Hseen Hplaces Hp Hname.
  - simpl in Hp. rewrite He in Hp.
    destruct (Py.truthy n) eqn:Htruthy; simpl in Hp.
    + rewrite bool_decide_eq_false_2 in Hp by assumption. simpl in Hp.
      apply (collect_seen_name _ _ _ n) in Hp;
        [| apply elem_of_union_r, elem_of_singleton; reflexivity | assumption].
      apply elem_of_app in Hp as [Hp | ->%list_elem_of_singleton]; [|reflexivity].
      now apply Hplaces in Hp.
    + apply collect_elem_of in Hp as [Hp|(e0 & _ & _ & Ht & _)].
      * now apply Hplaces in Hp.
      * congruence.
  - simpl in Hp.
    destruct (tags_of d !! "name") as [name|] eqn:Hdname; [|now apply (IH places seen_names)].
    destruct (Py.truthy name); simpl in Hp; [|now apply (IH places seen_names)].
    destruct (bool_decide (name ∈ seen_names)); simpl in Hp;
      [now apply (IH places seen_names)|].
    apply (IH _ _) in Hp; auto.
    + intros [Hn | Hn%elem_of_singleton]%elem_of_union; [auto | congruence].
    + intros q [Hq | ->%list_elem_of_singleton]%elem_of_app; [auto|].
      simpl. congruence.
Qed.

(** X3.  The first occurrence of a name wins: the record returned under a
    name is the one built from the first element of the reply that
    bears the name, also after ranking and trimming. *)
Theorem first_occurrence_wins (limit : Z) (data : option (list element))
  (earlier later : list element) (e : element) (p : place) :
  default [] data = (earlier ++ e :: later)%list ->
  tags_of e !! "name" = Some (p_name p) ->
  Forall (fun d => tags_of d !! "name" <> Some (p_name p)) earlier ->
  p ∈ get_tourist_places limit (Ok data) ->
  p = place_info (p_name p) e.
Proof.
  intros Hdata He Hearlier Hp%get_tourist_places_subseteq.
  rewrite Hdata in Hp.
  apply (collect_first_element earlier later e [] ∅ (p_name p)); auto.
  - apply not_elem_of_empty.
  - intros q Hq. now apply elem_of_nil in Hq.
Qed.

Lemma first_occurrence_wins_witness :
  place_info "Louvre" louvre ∈ get_tourist_places 2 (Ok (Some sample_elements)) /\
  place_info "Louvre" louvre <> place_info "Louvre" louvre_again /\
  place_info "Louvre" louvre
  = place_info (p_name (place_info "Louvre" louvre)) louvre.
Proof.
  assert (Hin : place_info "Louvre" louvre
                ∈ get_tourist_places 2 (Ok (Some sample_elements)))
    by (vm_compute; apply list_elem_of_here).
  split; [exact Hin|]. split; [intros [=]|].
  apply (first_occurrence_wins 2 (Some sample_elements) [cafe]
           [unnamed_bench; tuileries; louvre_again] louvre
           (place_info "Louvre" louvre)).
  - reflexivity.
  - reflexivity.
  - repeat constructor. vm_compute. discriminate.
  - exact Hin.
Defined.

Lemma collect_names_sublist (elements : list element) (places : list place)
  (seen_names : gset string) :
  exists names,
    p_name <$> collect elements places seen_names = ((p_name <$> places) ++ names)%list /\
    names `sublist_of` omap (fun e => tags_of e !! "name") elements.
Proof.
  revert places seen_names.
  induction elements as [|e elements IH]; intros places seen_names.
  - exists []. simpl. now rewrite app_nil_r.
  - simpl. destruct (tags_of e !! "name") as [name|]; [|apply IH].
    assert (Hskip : exists names,
      p_name <$> collect elements places seen_names = ((p_name <$> places) ++ names)%list /\
      names `sublist_of` name :: omap (fun e => tags_of e !! "name") elements).
    { destruct (IH places seen_names) as (names & Heq & Hsub).
      exists names. split; [exact Heq | now apply sublist_cons]. }
    destruct (Py.truthy name); simpl; [|exact Hskip].
    destruct (bool_decide (name ∈ seen_names)); simpl; [exact Hskip|].
    destruct (IH (places ++ [place_info name e])%list (seen_names ∪ {[name]}))
      as (names & Heq & Hsub).
    exists (name :: names). split; [|now apply sublist_skip].
    rewrite Heq, fmap_app, <- app_assoc. reflexivity.
Qed.

Lemma collect_complete (elements : list element) (places : list place)
  (seen_names : gset string) (n : string) :
  n ∈ named_set elements ->
  n ∈ seen_names \/ n ∈ p_name <$> collect elements places seen_names.
Proof.
  revert places seen_names.
  induction elements as [|e elements IH]; intros places seen_names Hn.
  - unfold named_set in Hn. simpl in Hn. now apply elem_of_empty in Hn.
  - rewrite named_set_cons in Hn. simpl.
    destruct (tags_of e !! "name") as [name|]; [|now apply IH].
    destruct (Py.truthy name); simpl; [|now apply IH].
    destruct (bool_decide (name ∈ seen_names)) eqn:Hseen; simpl.
    + apply bool_decide_eq_true in Hseen.
      apply elem_of_union in Hn as [->%elem_of_singleton | Hn]; [now left | now apply IH].
    + destruct (collect_names_sublist elements (places ++ [place_info name e])%list
                  (seen_names ∪ {[name]})) as (names & Heq & _).
      apply elem_of_union in Hn as [->%elem_of_singleton | Hn].
      * right. rewrite Heq, fmap_app. simpl.
        apply elem_of_app. left. apply elem_of_app. right. apply list_elem_of_here.
      * destruct (IH (places ++ [place_info name e])%list (seen_names ∪ {[name]}) Hn)
          as [[Hs | ->%elem_of_singleton]%elem_of_union | Hin]; auto.
        right. rewrite Heq, fmap_app. simpl.
        apply elem_of_app. left. apply elem_of_app. right. apply list_elem_of_here.
Qed.

(** X4.  When the reply has no more distinct names than the limit, nothing
    is ranked or dropped: the names come in the order of the reply (a
    subsequence of the reply's names) and every non-empty name of the
    reply is among them. *)
Theorem places_within_limit_keep_order (limit : Z) (data : option (list element)) :
  Z.of_nat (size (named_set (default [] data))) <= limit ->
  p_name <$> get_tourist_places limit (Ok data)
    `sublist_of` omap (fun e => tags_of e !! "name") (default [] data) /\
  forall n, n ∈ named_set (default [] data) ->
            n ∈ p_name <$> get_tourist_places limit (Ok data).
Proof.
  intros Hlimit.
  assert (Hall : get_tourist_places limit (Ok data) = collect (default [] data) [] ∅).
  { unfold get_tourist_places, get_tourist_places_body. simpl.
    rewrite collect_all_length.
    destruct (limit <? _) eqn:Hlt; [lia | reflexivity]. }
  rewrite Hall. split.
  - destruct (collect_names_sublist (default [] data) [] ∅) as (names & -> & Hsub).
    exact Hsub.
  - intros n Hn.
    destruct (collect_complete (default [] data) [] ∅ n Hn) as [Hs|Hin]; [|exact Hin].
    now apply elem_of_empty in Hs.
Qed.

Lemma places_within_limit_keep_order_witness :
  p_name <$> get_tourist_places 8 (Ok (Some sample_elements))
    `sublist_of` ["Cafe Bleu"; "Louvre"; "Tuileries"; "Louvre"].
Proof.
  apply (proj1 (places_within_limit_keep_order 8 (Some sample_elements)
                  ltac:(vm_compute; discriminate))).
Defined.

Lemma StronglySorted_app_elem {A : Type} (R : A -> A -> Prop) (l1 l2 : list A) (x y : A) :
  StronglySorted R (l1 ++ l2) -> x ∈ l1 -> y ∈ l2 -> R x y.
Proof.
  induction l1 as [|z l1 IH]; simpl; intros Hs Hx Hy; [now apply elem_of_nil in Hx|].
  inversion Hs as [|? ? Hs' Hz]; subst.
  apply elem_of_cons in Hx as [->|Hx]; [|now apply IH].
  rewrite Forall_forall in Hz. apply Hz, elem_of_app. now right.
Qed.

(** X5.  Trimming keeps the best: a place of the reply that is left out
    never ranks before a place that is returned.  The places of the
    reply are those returned under a limit as large as the reply. *)
Theorem trimming_keeps_best (limit : Z) (data : option (list element)) (p q : place) :
  p ∈ get_tourist_places limit (Ok data) ->
  q ∈ get_tourist_places (Z.of_nat (length (default [] data))) (Ok data) ->
  q ∉ get_tourist_places limit (Ok data) ->
  key_le (rank p) (rank q).
Proof.
  intros Hp Hq%get_tourist_places_subseteq Hout.
  destruct (get_tourist_places_shape limit data) as [Hall | [n Htake]].
  - rewrite Hall in Hout. contradiction.
  - rewrite Htake in Hp, Hout.
    rewrite <- (sorted_perm rank), <- (take_drop n) in Hq.
    apply elem_of_app in Hq as [Hq|Hq]; [contradiction|].
    apply (StronglySorted_app_elem (fun p q => key_le (rank p) (rank q))
             (take n (sorted rank (collect (default [] data) [] ∅)))
             (drop n (sorted rank (collect (default [] data) [] ∅))));
      [|exact Hp|exact Hq].
    rewrite take_drop. apply sorted_StronglySorted.
Qed.

Lemma trimming_keeps_best_witness :
  key_le (rank (place_info "Tuileries" tuileries)) (rank (place_info "Cafe Bleu" cafe)).
Proof.
  apply (trimming_keeps_best 2 (Some sample_elements)).
  - vm_compute. apply list_elem_of_further, list_elem_of_here.
  - vm_compute. apply list_elem_of_here.
  - vm_compute. intros H.
    repeat (apply elem_of_cons in H as [[=]|H]). now apply elem_of_nil in H.
Defined.

(** X6.  A negative limit does not raise: the places are ranked and the
    last [-limit] of them dropped, as the slice [[:limit]] does. *)
Theorem negative_limit_drops_last (limit : Z) (data : option (list element)) :
  limit < 0 ->
  Z.of_nat (length (get_tourist_places limit (Ok data)))
  = Z.max 0 (Z.of_nat (size (named_set (default [] data))) + limit) /\
  StronglySorted (fun p q => key_le (rank p) (rank q))
    (get_tourist_places limit (Ok data)).
Proof.
  intros Hneg.
  assert (Hshape : get_tourist_places limit (Ok data)
    = take (size (named_set (default [] data)) - Z.to_nat (- limit))
        (sorted rank (collect (default [] data) [] ∅))).
  { unfold get_tourist_places, get_tourist_places_body, slice_to. simpl.
    rewrite collect_all_length.
    destruct (limit <? Z.of_nat (size (named_set (default [] data)))) eqn:Hlt;
      [|apply Z.ltb_ge in Hlt; lia].
    destruct (0 <=? limit) eqn:Hle; [apply Z.leb_le in Hle; lia|].
    now rewrite (Permutation_length (sorted_perm rank _)), collect_all_length. }
  rewrite Hshape. split.
  - rewrite length_take, (Permutation_length (sorted_perm rank _)), collect_all_length.
    lia.
  - apply StronglySorted_take_le, sorted_StronglySorted.
Qed.

Lemma negative_limit_drops_last_witness :
  Z.of_nat (length (get_tourist_places (-1) (Ok (Some sample_elements)))) = 2.
Proof.
  exact (proj1 (negative_limit_drops_last (-1) (Some sample_elements) ltac:(lia))).
Defined.



(** X7.  The coordinates of a returned record: it is built from a named
    element of the reply, and it carries the element's centre when the
    element has no latitude and a centre, the element's own coordinates
    when its latitude is not zero, and also when it has no centre. *)
Theorem place_coordinates (limit : Z) (data : option (list element)) (p : place) :
  p ∈ get_tourist_places limit (Ok data) ->
  exists e,
    e ∈ default [] data /\ tags_of e !! "name" = Some (p_name p) /\
    (forall c, el_lat e = None -> el_center e = Some c -> c <> ∅ ->
               p_lat p = c !! "lat" /\ p_lon p = c !! "lon") /\
    (forall x, el_lat e = Some x -> Py.truthy_float x = true ->
               p_lat p = Some x /\ p_lon p = el_lon e) /\
    (center_truthy e = false -> p_lat p = el_lat e /\ p_lon p = el_lon e).
Proof.
  intros Hp%get_tourist_places_subseteq.
  apply collect_elem_of in Hp as [Hp|(e & He & Hname & _ & ->)];
    [now apply elem_of_nil in Hp|].
  exists e. split; [exact He|]. split; [exact Hname|]. simpl.
  split; [|split].
  - intros c Hlat Hc Hne. now rewrite (coords_of_center e c).
  - intros x Hlat Hx. now rewrite (coords_of_direct e x).
  - intros Hc. now rewrite (coords_of_no_center e).
Qed.

Lemma place_coordinates_witness :
  exists e,
    e ∈ sample_elements /\ tags_of e !! "name" = Some "Tuileries" /\
    (forall c, el_lat e = None -> el_center e = Some c -> c <> ∅ ->
               p_lat (place_info "Tuileries" tuileries) = c !! "lat" /\
               p_lon (place_info "Tuileries" tuileries) = c !! "lon").
Proof.
  destruct (place_coordinates 2 (Some sample_elements) (place_info "Tuileries" tuileries))
    as (e & He & Hname & Hcenter & _).
  - vm_compute. apply list_elem_of_further, list_elem_of_here.
  - exists e. auto.
Defined.

(** ** Geocoding: what [get_coordinates] returns and when it gives up *)

Lemma geo_of_ok (pyfloat : string -> option float) (c : candidate) (g : geo) :
  geo_of pyfloat c = Ok g -> describes pyfloat c g.
Proof.
  unfold geo_of, describes, to_float.
  destruct (cand_lat c) as [lat_text|]; [|discriminate]. simpl.
  destruct (pyfloat lat_text) as [x|] eqn:Hx; [|discriminate]. simpl.
  destruct (cand_lon c) as [lon_text|]; [|discriminate]. simpl.
  destruct (pyfloat lon_text) as [y|] eqn:Hy; [|discriminate]. simpl.
  destruct (cand_display_name c) as [name|]; [|discriminate]. simpl.
  intros [= <-]. exists lat_text, lon_text. simpl. auto.
Qed.

Lemma prefer_place_some (pyfloat : string -> option float) (data : list candidate)
  (g : geo) :
  prefer_place pyfloat data = Ok (Some g) ->
  exists earlier c later,
    data = (earlier ++ c :: later)%list /\
    Forall (fun d => is_place_type d = false) earlier /\
    is_place_type c = true /\ geo_of pyfloat c = Ok g.
Proof.
  induction data as [|d data IH]; simpl; [discriminate|].
  destruct (is_place_type d) eqn:Hd.
  - destruct (geo_of pyfloat d) as [g'|] eqn:Hgeo; [|discriminate].
    intros [= <-]. exists [], d, data. auto.
  - intros (earlier & c & later & -> & He & Hc & Hg)%IH.
    exists (d :: earlier), c, later. auto.
Qed.

Lemma prefer_place_no_place (pyfloat : string -> option float) (data : list candidate) :
  prefer_place pyfloat data = Ok None ->
  Forall (fun d => is_place_type d = false) data.
Proof.
  induction data as [|d data IH]; simpl; [constructor|].
  destruct (is_place_type d) eqn:Hd.
  - destruct (geo_of pyfloat d); discriminate.
  - intros H%IH. now constructor.
Qed.

(** X8.  A result of [get_coordinates] is never made up: it is what the
    first candidate of a place type holds or, when the reply has no
    candidate of a place type, what its first candidate holds. *)
Theorem get_coordinates_sound (pyfloat : string -> option float)
  (response : result (list candidate)) (g : geo) :
  get_coordinates pyfloat response = Some g ->
  exists (earlier later : list candidate) (c : candidate),
    response = Ok (earlier ++ c :: later)%list /\
    describes pyfloat c g /\
    Forall (fun d => is_place_type d = false) earlier /\
    (is_place_type c = true \/
     earlier = [] /\ Forall (fun d => is_place_type d = false) later).
Proof.
  unfold get_coordinates, get_coordinates_body.
  destruct response as [data|e]; [|destruct e; discriminate].
  simpl. destruct data as [|first rest]; [discriminate|].
  destruct (prefer_place pyfloat (first :: rest)) as [[g'|]|e] eqn:Hprefer; simpl.
  - intros [= ->].
    apply prefer_place_some in Hprefer as (earlier & c & later & -> & He & Hc & Hg).
    exists earlier, later, c. split; [reflexivity|].
    split; [now apply geo_of_ok|]. auto.
  - apply prefer_place_no_place in Hprefer.
    destruct (geo_of pyfloat first) as [g'|e] eqn:Hgeo; simpl; [|destruct e; discriminate].
    intros [= ->]. exists [], rest, first. split; [reflexivity|].
    split; [now apply geo_of_ok|]. split; [constructor|].
    right. split; [reflexivity|]. now inversion Hprefer.
  - destruct e; discriminate.
Qed.

Lemma get_coordinates_sound_witness :
  exists (earlier later : list candidate) (c : candidate),
    Ok [eiffel_tower; paris; paris_texas] = Ok (earlier ++ c :: later)%list /\
    describes sample_float c paris_geo /\
    Forall (fun d => is_place_type d = false) earlier /\
    (is_place_type c = true \/
     earlier = [] /\ Forall (fun d => is_place_type d = false) later).
Proof.
  exact (get_coordinates_sound sample_float (Ok [eiffel_tower; paris; paris_texas])
           paris_geo eq_refl).
Defined.

Lemma geo_of_incomplete (pyfloat : string -> option float) (c : candidate) :
  incomplete pyfloat c -> exists e, geo_of pyfloat c = Raise e.
Proof.
  unfold incomplete, geo_of, to_float.
  destruct (cand_lat c) as [lat_text|]; simpl; [|eauto].
  destruct (pyfloat lat_text) as [x|] eqn:Hx; simpl; [|eauto].
  destruct (cand_lon c) as [lon_text|]; simpl; [|eauto].
  destruct (pyfloat lon_text) as [y|] eqn:Hy; simpl; [|eauto].
  destruct (cand_display_name c) as [name|]; simpl; [|eauto].
  intros [H|[H|[H|[(t & [= <-] & H)|(t & [= <-] & H)]]]]; congruence.
Qed.

Lemma get_coordinates_cons (pyfloat : string -> option float)
  (first : candidate) (rest : list candidate) :
  get_coordinates pyfloat (Ok (first :: rest))
  = match prefer_place pyfloat (first :: rest) with
    | Ok (Some g) => Some g
    | Ok None => match geo_of pyfloat first with Ok g => Some g | Raise _ => None end
    | Raise _ => None
    end.
Proof.
  unfold get_coordinates, get_coordinates_body.
  change (Ok (first :: rest) ≫= ?f) with (f (first :: rest)). cbv beta iota.
  destruct (prefer_place pyfloat (first :: rest)) as [[g|]|e]; simpl;
    [reflexivity | | now destruct e].
  destruct (geo_of pyfloat first) as [g|e]; simpl; [reflexivity | now destruct e].
Qed.

(** X9.  No second try: when the candidate the selection falls on is
    incomplete, [get_coordinates] returns [None], whatever the later
    candidates hold. *)
Theorem incomplete_candidate_not_found (pyfloat : string -> option float)
  (earlier later : list candidate) (c : candidate) :
  Forall (fun d => is_place_type d = false) earlier ->
  is_place_type c = true \/ earlier = [] /\ Forall (fun d => is_place_type d = false) later ->
  incomplete pyfloat c ->
  get_coordinates pyfloat (Ok (earlier ++ c :: later)%list) = None.
Proof.
  intros Hearlier Hsel (e & Hgeo)%geo_of_incomplete.
  assert (Hprefer : is_place_type c = true ->
            prefer_place pyfloat (earlier ++ c :: later)%list = Raise e).
  { intros Hc. rewrite prefer_place_skip by assumption. simpl. now rewrite Hc, Hgeo. }
  destruct Hsel as [Hc | [-> Hlater]].
  - destruct earlier as [|d earlier]; simpl app in *;
      rewrite get_coordinates_cons, (Hprefer Hc); reflexivity.
  - simpl app in *. rewrite get_coordinates_cons.
    destruct (is_place_type c) eqn:Hc; [now rewrite Hprefer|].
    simpl. rewrite Hc, (prefer_place_none pyfloat later Hlater), Hgeo. reflexivity.
Qed.

Lemma incomplete_candidate_not_found_witness :
  get_coordinates sample_float (Ok [eiffel_tower; broken_candidate; paris]) = None.
Proof.
  apply (incomplete_candidate_not_found sample_float [eiffel_tower] [paris] broken_candidate).
  - repeat constructor.
  - left. reflexivity.
  - left. reflexivity.
Defined.

(** ** Weather descriptions *)

Lemma append_length (a b : string) :
  String.length (a ++ b) = (String.length a + String.length b)%nat.
Proof.
  induction a as [|c a IH]; [reflexivity|].
  rewrite append_cons. simpl. now rewrite IH.
Qed.

Lemma append_inj_r (a b c : string) : a ++ c = b ++ c -> a = b.
Proof.
  intros H.
  assert (Hlen : String.length a = String.length b).
  { apply (f_equal String.length) in H. rewrite !append_length in H. lia. }
  revert b H Hlen. induction a as [|x a IH]; intros [|y b] H Hlen;
    try discriminate; [reflexivity|].
  rewrite !append_cons in H. injection H as -> H.
  f_equal. apply IH; [exact H | simpl in Hlen; lia].
Qed.

Lemma str_int_inj (a b : Z) : Py.str_int a = Py.str_int b -> a = b.
Proof.
  intros H. apply (f_equal Py.int_str) in H.
  rewrite !int_str_str_int in H. congruence.
Qed.

Lemma snd_NoDup_fst {A B : Type} (l : list (A * B)) (a a' : A) (b : B) :
  NoDup l.*2 -> (a, b) ∈ l -> (a', b) ∈ l -> a = a'.
Proof.
  induction l as [|[x y] l IH]; simpl; intros Hnd H1 H2; [now apply elem_of_nil in H1|].
  apply NoDup_cons in Hnd as [Hy Hnd].
  assert (Hsnd : forall a0, (a0, b) ∈ l -> b ∈ l.*2).
  { intros a0 H. apply list_elem_of_fmap. now exists (a0, b). }
  apply elem_of_cons in H1 as [H1|H1]; apply elem_of_cons in H2 as [H2|H2].
  - congruence.
  - injection H1 as -> ->. exfalso. eauto.
  - injection H2 as -> ->. exfalso. eauto.
  - now apply IH.
Qed.

Lemma WEATHER_CODES_labels_distinct : NoDup WEATHER_CODES_items.*2.
Proof. apply (bool_decide_unpack _). vm_compute. exact I. Qed.

Lemma WEATHER_CODES_labels_known (code : Z) (label : string) :
  (code, label) ∈ WEATHER_CODES_items ->
  Py.truthy label = true /\ forall numeral, label <> "Unknown (" ++ numeral ++ ")".
Proof.
  intros H.
  assert (Hall : Forall (fun l => match l with
                                  | String c _ => c <> "U"%char
                                  | EmptyString => False
                                  end) WEATHER_CODES_items.*2).
  { repeat constructor; discriminate. }
  rewrite Forall_forall in Hall.
  specialize (Hall label). destruct label as [|c label].
  - exfalso. apply Hall. apply list_elem_of_fmap. now exists (code, "").
  - split; [reflexivity|]. intros numeral [= -> _].
    apply Hall; [|reflexivity]. apply list_elem_of_fmap. now exists (code, String "U" label).
Qed.

(** X10.  A description names its code: two different weather codes never
    get the same description, and no description is empty. *)
Theorem weather_descriptions_differ (a b : Z) :
  a <> b ->
  get_weather_description a <> get_weather_description b /\
  Py.truthy (get_weather_description a) = true.
Proof.
  intros Hab. unfold get_weather_description.
  destruct (WEATHER_CODES !! a) as [la|] eqn:Ha;
    [apply elem_of_list_to_map_2 in Ha; destruct (WEATHER_CODES_labels_known _ _ Ha) as [Hta Hua]|];
    (destruct (WEATHER_CODES !! b) as [lb|] eqn:Hb;
     [apply elem_of_list_to_map_2 in Hb; destruct (WEATHER_CODES_labels_known _ _ Hb) as [Htb Hub]|]);
    simpl.
  - split; [|exact Hta]. intros ->.
    apply Hab. exact (snd_NoDup_fst _ _ _ _ WEATHER_CODES_labels_distinct Ha Hb).
  - split; [|exact Hta]. apply Hua.
  - split; [|reflexivity]. intros H. symmetry in H. now apply Hub in H.
  - split; [|reflexivity].
    intros H%(inj (String.append "Unknown ("))%append_inj_r%str_int_inj. contradiction.
Qed.

Lemma weather_descriptions_differ_witness :
  get_weather_description 61 <> get_weather_description 63 /\
  get_weather_description 4 <> get_weather_description (-4).
Proof.
  split.
  - exact (proj1 (weather_descriptions_differ 61 63 ltac:(lia))).
  - exact (proj1 (weather_descriptions_differ 4 (-4) ltac:(lia))).
Defined.

(** ** Stripping *)

Lemma lstrip_by_all (p : ascii -> bool) (a s : string) :
  all_chars p a = true -> Py.lstrip_by p (a ++ s) = Py.lstrip_by p s.
Proof.
  induction a as [|c a IH]; [reflexivity|].
  intros [Hc Ha]%andb_true_iff. rewrite append_cons. simpl. rewrite Hc. auto.
Qed.

Lemma lstrip_by_app (p : ascii -> bool) (s b : string) :
  Py.lstrip_by p (s ++ b)
  = if Py.truthy (Py.lstrip_by p s) then Py.lstrip_by p s ++ b else Py.lstrip_by p b.
Proof.
  induction s as [|c s IH]; [reflexivity|].
  rewrite append_cons. simpl. destruct (p c); [exact IH|].
  simpl. now rewrite append_cons.
Qed.

Lemma rstrip_by_all (p : ascii -> bool) (b : string) :
  all_chars p b = true -> Py.rstrip_by p b = "".
Proof.
  induction b as [|c b IH]; [reflexivity|].
  intros [Hc Hb]%andb_true_iff. simpl. now rewrite (IH Hb), Hc.
Qed.

Lemma rstrip_by_app (p : ascii -> bool) (s b : string) :
  Py.rstrip_by p (s ++ b)
  = if Py.truthy (Py.rstrip_by p b) then s ++ Py.rstrip_by p b else Py.rstrip_by p s.
Proof.
  induction s as [|c s IH].
  - rewrite append_nil_l. now destruct (Py.rstrip_by p b).
  - rewrite append_cons. simpl. rewrite IH.
    destruct (Py.rstrip_by p b) as [|x r]; simpl.
    + reflexivity.
    + rewrite append_cons. destruct (s ++ String x r) eqn:Hs; [|reflexivity].
      destruct s; discriminate.
Qed.

(** Characters that [strip] removes around a text do not matter. *)
Lemma strip_by_wrap (p : ascii -> bool) (a s b : string) :
  all_chars p a = true -> all_chars p b = true ->
  Py.strip_by p (a ++ s ++ b) = Py.strip_by p s.
Proof.
  intros Ha Hb. unfold Py.strip_by.
  rewrite (lstrip_by_all p a _ Ha), lstrip_by_app.
  destruct (Py.truthy (Py.lstrip_by p s)) eqn:Hs.
  - now rewrite rstrip_by_app, (rstrip_by_all p b Hb).
  - destruct (Py.lstrip_by p s); [|discriminate].
    rewrite <- (append_nil_r b), (lstrip_by_all p b "" Hb). reflexivity.
Qed.

Lemma trimmed_strip_by (p : ascii -> bool) (s : string) :
  trimmed p s -> Py.strip_by p s = s.
Proof. intros [Hl Hr]. unfold Py.strip_by. now rewrite Hl, Hr. Qed.

Lemma lstrip_by_none (p : ascii -> bool) (a : string) :
  all_chars (fun c => negb (p c)) a = true -> Py.lstrip_by p a = a.
Proof.
  destruct a as [|c a]; [reflexivity|].
  intros [Hc _]%andb_true_iff. simpl. now apply negb_true_iff in Hc as ->.
Qed.

Lemma rstrip_by_none (p : ascii -> bool) (b : string) :
  all_chars (fun c => negb (p c)) b = true -> Py.rstrip_by p b = b.
Proof.
  induction b as [|c b IH]; [reflexivity|].
  intros [Hc%negb_true_iff Hb]%andb_true_iff. simpl. rewrite (IH Hb), Hc.
  now destruct b.
Qed.

(** A trimmed text stays trimmed inside characters [strip] keeps. *)
Lemma trimmed_wrap (p : ascii -> bool) (a s b : string) :
  all_chars (fun c => negb (p c)) a = true ->
  all_chars (fun c => negb (p c)) b = true ->
  trimmed p s -> trimmed p (a ++ s ++ b).
Proof.
  intros Ha Hb [Hl Hr]. split.
  - destruct a as [|c a].
    + rewrite append_nil_l, lstrip_by_app, Hl.
      destruct s; [apply lstrip_by_none, Hb | reflexivity].
    + apply andb_true_iff in Ha as [Hc%negb_true_iff _].
      rewrite append_cons. simpl. now rewrite Hc.
  - assert (Hsb : Py.rstrip_by p (s ++ b) = s ++ b).
    { rewrite rstrip_by_app, (rstrip_by_none p b Hb), Hr.
      destruct b; [now rewrite append_nil_r | reflexivity]. }
    rewrite rstrip_by_app, Hsb.
    destruct (s ++ b) eqn:Hempty; [|reflexivity].
    simpl. rewrite append_nil_r. apply rstrip_by_none, Ha.
Qed.

Lemma all_chars_impl (p q : ascii -> bool) (s : string) :
  (forall c, p c = true -> q c = true) -> all_chars p s = true -> all_chars q s = true.
Proof.
  intros Hpq. induction s as [|c s IH]; [reflexivity|].
  intros [Hc Hs]%andb_true_iff. simpl. now rewrite (Hpq c Hc), (IH Hs).
Qed.

(** ** The spelling suggestion *)

Lemma quote_not_space (c : ascii) :
  is_double_quote c = true \/ is_single_quote c = true -> negb (Py.isspace c) = true.
Proof.
  unfold is_double_quote, is_single_quote.
  intros [->%bool_decide_eq_true | ->%bool_decide_eq_true]; reflexivity.
Qed.

Lemma single_not_double_quote (c : ascii) :
  is_single_quote c = true -> negb (is_double_quote c) = true.
Proof. unfold is_single_quote. now intros ->%bool_decide_eq_true. Qed.

(** X11.  The suggestion is the reply without what is wrapped around it:
    blanks outside, double quotes inside them, single quotes inside
    those, in any number; the name itself is taken to have no blank
    and no quote at either end. *)
Theorem spelling_suggestion_unwrapped (place_name name w1 d1 q1 q2 d2 w2 : string) :
  all_chars Py.isspace w1 = true -> all_chars Py.isspace w2 = true ->
  all_chars is_double_quote d1 = true -> all_chars is_double_quote d2 = true ->
  all_chars is_single_quote q1 = true -> all_chars is_single_quote q2 = true ->
  trimmed Py.isspace name -> trimmed is_double_quote name ->
  trimmed is_single_quote name ->
  _get_spelling_suggestions place_name
    (Ok (w1 ++ d1 ++ q1 ++ name ++ q2 ++ d2 ++ w2)) = name.
Proof.
  intros Hw1 Hw2 Hd1 Hd2 Hq1 Hq2 Hspace Hdouble Hsingle.
  unfold _get_spelling_suggestions, Py.strip_char, Py.strip. simpl.
  change (fun c : ascii => bool_decide (c = double_quote)) with is_double_quote.
  change (fun c : ascii => bool_decide (c = single_quote)) with is_single_quote.
  set (inner := q1 ++ name ++ q2).
  set (middle := d1 ++ inner ++ d2).
  replace (w1 ++ d1 ++ q1 ++ name ++ q2 ++ d2 ++ w2) with (w1 ++ middle ++ w2)
    by (unfold middle, inner; now rewrite !append_assoc).
  assert (Hinner : trimmed Py.isspace inner /\ trimmed is_double_quote inner).
  { split; apply trimmed_wrap; auto.
    - apply (all_chars_impl is_single_quote); [|exact Hq1]. intros c Hc. apply quote_not_space. auto.
    - apply (all_chars_impl is_single_quote); [|exact Hq2]. intros c Hc. apply quote_not_space. auto.
    - apply (all_chars_impl is_single_quote); [|exact Hq1]. apply single_not_double_quote.
    - apply (all_chars_impl is_single_quote); [|exact Hq2]. apply single_not_double_quote. }
  destruct Hinner as [Hinner_space Hinner_double].
  assert (Hmiddle : trimmed Py.isspace middle).
  { apply trimmed_wrap; auto.
    - apply (all_chars_impl is_double_quote); [|exact Hd1]. intros c Hc. apply quote_not_space. auto.
    - apply (all_chars_impl is_double_quote); [|exact Hd2]. intros c Hc. apply quote_not_space. auto. }
  rewrite (strip_by_wrap Py.isspace w1 middle w2 Hw1 Hw2).
  rewrite (trimmed_strip_by _ _ Hmiddle). unfold middle.
  rewrite (strip_by_wrap is_double_quote d1 inner d2 Hd1 Hd2).
  rewrite (trimmed_strip_by _ _ Hinner_double). unfold inner.
  rewrite (strip_by_wrap is_single_quote q1 name q2 Hq1 Hq2).
  now apply trimmed_strip_by.
Qed.

Lemma spelling_suggestion_unwrapped_witness :
  _get_spelling_suggestions "bengalururu"
    (Ok (" " ++ String double_quote "" ++ "'" ++ "Bangalore" ++ "'"
         ++ String double_quote "" ++ Py.newline)) = "Bangalore".
Proof.
  apply (spelling_suggestion_unwrapped "bengalururu" "Bangalore" " "
           (String double_quote "") "'" "'" (String double_quote "") Py.newline);
    try reflexivity; split; reflexivity.
Defined.

(** ** Greetings *)

Lemma lower_char_idem (c : ascii) : Py.lower_char (Py.lower_char c) = Py.lower_char c.
Proof. destruct c as [[] [] [] [] [] [] [] []]; reflexivity. Qed.

Lemma isspace_lower_char (c : ascii) : Py.isspace (Py.lower_char c) = Py.isspace c.
Proof. destruct c as [[] [] [] [] [] [] [] []]; reflexivity. Qed.

Lemma lower_idem (s : string) : Py.lower (Py.lower s) = Py.lower s.
Proof.
  induction s as [|c s IH]; [reflexivity|]. simpl. now rewrite lower_char_idem, IH.
Qed.

Lemma lower_app (a b : string) : Py.lower (a ++ b) = Py.lower a ++ Py.lower b.
Proof.
  induction a as [|c a IH]; [reflexivity|].
  rewrite append_cons. simpl. now rewrite IH, append_cons.
Qed.

Lemma all_chars_space_lower (a : string) :
  all_chars Py.isspace a = true -> all_chars Py.isspace (Py.lower a) = true.
Proof.
  induction a as [|c a IH]; [reflexivity|].
  intros [Hc Ha]%andb_true_iff. simpl. now rewrite isspace_lower_char, Hc, IH.
Qed.

Lemma lstrip_lower (s : string) :
  Py.lstrip_by Py.isspace (Py.lower s) = Py.lower (Py.lstrip_by Py.isspace s).
Proof.
  induction s as [|c s IH]; [reflexivity|].
  simpl. rewrite isspace_lower_char. now destruct (Py.isspace c).
Qed.

Lemma rstrip_lower (s : string) :
  Py.rstrip_by Py.isspace (Py.lower s) = Py.lower (Py.rstrip_by Py.isspace s).
Proof.
  induction s as [|c s IH]; [reflexivity|].
  simpl. rewrite IH, isspace_lower_char.
  destruct (Py.rstrip_by Py.isspace s); simpl; [now destruct (Py.isspace c) | reflexivity].
Qed.

Lemma strip_lower (s : string) : Py.strip (Py.lower s) = Py.lower (Py.strip s).
Proof. unfold Py.strip, Py.strip_by. now rewrite lstrip_lower, rstrip_lower. Qed.

Lemma lstrip_by_idem (p : ascii -> bool) (s : string) :
  Py.lstrip_by p (Py.lstrip_by p s) = Py.lstrip_by p s.
Proof.
  induction s as [|c s IH]; [reflexivity|].
  simpl. destruct (p c) eqn:Hc; [exact IH|]. simpl. now rewrite Hc.
Qed.

Lemma rstrip_by_idem (p : ascii -> bool) (s : string) :
  Py.rstrip_by p (Py.rstrip_by p s) = Py.rstrip_by p s.
Proof.
  induction s as [|c s IH]; [reflexivity|].
  simpl. destruct (Py.rstrip_by p s) as [|x r] eqn:Hr.
  - destruct (p c) eqn:Hc; [reflexivity|]. simpl. now rewrite Hc.
  - change (Py.rstrip_by p (String c (String x r)))
      with (match Py.rstrip_by p (String x r) with
            | EmptyString => if p c then EmptyString else String c EmptyString
            | r0 => String c r0
            end).
    now rewrite IH.
Qed.

Lemma lstrip_rstrip (p : ascii -> bool) (t : string) :
  Py.lstrip_by p t = t -> Py.lstrip_by p (Py.rstrip_by p t) = Py.rstrip_by p t.
Proof.
  destruct t as [|c t]; [reflexivity|].
  simpl. destruct (p c) eqn:Hc.
  - intros H. exfalso.
    assert (Hlen : forall s, (String.length (Py.lstrip_by p s) <= String.length s)%nat).
    { induction s as [|x s IH]; simpl; [lia|]. destruct (p x); simpl; lia. }
    specialize (Hlen t). rewrite H in Hlen. simpl in Hlen. lia.
  - intros _. destruct (Py.rstrip_by p t); simpl; now rewrite Hc.
Qed.

Lemma strip_by_trimmed (p : ascii -> bool) (s : string) : trimmed p (Py.strip_by p s).
Proof.
  unfold trimmed, Py.strip_by. split.
  - apply lstrip_rstrip, lstrip_by_idem.
  - apply rstrip_by_idem.
Qed.

(** X12.  Telling a greeting ignores case and the blanks around the text. *)
Theorem greeting_ignores_case_and_blanks (user_input : string) :
  is_greeting (Py.lower user_input) = is_greeting user_input /\
  is_greeting (Py.strip user_input) = is_greeting user_input /\
  forall a b,
    all_chars Py.isspace a = true -> all_chars Py.isspace b = true ->
    is_greeting (a ++ user_input ++ b) = is_greeting user_input.
Proof.
  unfold is_greeting. split; [|split].
  - now rewrite lower_idem.
  - rewrite <- strip_lower. unfold Py.strip.
    now rewrite (trimmed_strip_by _ _ (strip_by_trimmed _ _)).
  - intros a b Ha Hb. rewrite !lower_app. unfold Py.strip.
    now rewrite strip_by_wrap by now apply all_chars_space_lower.
Qed.

Lemma greeting_ignores_case_and_blanks_witness :
  is_greeting ("  " ++ "HeLLo" ++ Py.newline) = true.
Proof.
  rewrite (proj2 (proj2 (greeting_ignores_case_and_blanks "HeLLo")) "  " Py.newline
             eq_refl eq_refl).
  rewrite <- (proj1 (greeting_ignores_case_and_blanks "HeLLo")).
  reflexivity.
Defined.

(** ** The whole of [process_query] *)

(** X13.  A reply whose place is missing, [null], or one of the texts
    "null", "None" and the empty text, is turned away as a greeting
    after the one call that analyses the query, whatever its list of
    intents and its validity mark say: for intents that are a list, or
    are not given. *)
Theorem null_place_rejected (w : world) (user_input : string)
  (search_radius max_places : Z) (decoded : reply) :
  reply_place decoded ∈ [None; Some "null"; Some "None"; Some ""] ->
  reply_intents decoded <> Some IntentNull ->
  process_query_reply w (Ok decoded) user_input search_radius max_places
  = Traced (Ok (Failure true HELP_MESSAGE)) [CallIntent user_input].
Proof.
  intros Hplace Hintents. unfold process_query_reply. rewrite bind_perform.
  change (understand_query_reply user_input (Ok decoded)) with (normalize_reply decoded).
  unfold normalize_reply. rewrite bool_decide_eq_true_2 by exact Hplace. simpl.
  destruct (reply_intents decoded) as [[names|]|]; [|contradiction|]; simpl;
    unfold rejects; simpl; now rewrite ?orb_true_r.
Qed.

Lemma null_place_rejected_witness :
  process_query_reply
    (sample_world (Raise Timeout) (Raise Timeout) (Ok [paris]))
    (Ok {| reply_place := Some "null"; reply_intents := Some (IntentList ["weather"]);
           reply_days := Some 2; reply_is_valid_query := Some true |})
    "what is the weather" 30000 8
  = Traced (Ok (Failure true HELP_MESSAGE)) [CallIntent "what is the weather"].
Proof.
  apply (null_place_rejected (sample_world (Raise Timeout) (Raise Timeout) (Ok [paris]))
           "what is the weather" 30000 8).
  - apply elem_of_cons. right. apply elem_of_cons. now left.
  - discriminate.
Defined.



Lemma get_tourist_places_bound (limit : Z) (response : result (option (list element))) :
  0 <= limit -> Z.of_nat (length (get_tourist_places limit response)) <= limit.
Proof.
  intros Hlimit. destruct response as [data|e].
  - rewrite get_tourist_places_length by assumption. lia.
  - rewrite get_tourist_places_raise. simpl. lia.
Qed.

Lemma rejects_false_place (intents : list string) (place_name : option string)
  (is_valid : bool) :
  rejects intents place_name is_valid = false ->
  Py.truthy (default "" place_name) = true.
Proof.
  unfold rejects. intros [[_ H]%orb_false_iff _]%orb_false_iff.
  apply negb_false_iff in H. now destruct place_name.
Qed.

Lemma process_query_success_data (w : world) (user_input : string)
  (search_radius max_places : Z) (place display_name : string)
  (coordinates : float * float) (intents : list string) (data : data_map)
  (summary : string) :
  value (process_query w user_input search_radius max_places)
  = Success place display_name coordinates intents data summary ->
  Py.truthy place = true /\
  (exists g, get_coordinates (py_float w) (http_geocoding w place) = Some g /\
             display_name = geo_display_name g /\
             coordinates = (geo_lat g, geo_lon g)) /\
  (forall j, d_weather data = Some j -> json_truthy j = true) /\
  (forall ps, d_places data = Some ps ->
              ps <> [] /\ NoDup (p_name <$> ps) /\
              (0 <= max_places -> Z.of_nat (length ps) <= max_places)) /\
  (present (d_tips data) = true ->
   weather_truthy data = true /\ places_truthy data = true) /\
  (present (d_itinerary data) = true -> places_truthy data = true).
Proof.
  unfold process_query. rewrite bind_perform.
  set (query_analysis := understand_query user_input (chat_intent w user_input)).
  set (intents0 := default ["weather"; "places"] (a_intents query_analysis)).
  destruct (rejects intents0 _ _) eqn:Hpass; [discriminate|].
  apply rejects_false_place in Hpass.
  rewrite bind_perform.
  set (place_name := default "" (a_place query_analysis)) in *.
  destruct (get_coordinates _ _) as [g|] eqn:Hgeo; [|discriminate].
  unfold fetch_weather, fetch_places, make_tips, make_itinerary.
  pose proof (get_tourist_places_NoDup max_places
                (http_places w (geo_lat g) (geo_lon g) search_radius max_places)) as Hnd.
  pose proof (get_tourist_places_bound max_places
                (http_places w (geo_lat g) (geo_lon g) search_radius max_places)) as Hlen.
  generalize (has "weather" intents0) (has "general" intents0) (has "places" intents0)
             (has "itinerary" intents0) (has "tips" intents0).
  intros hw hg hp hi ht.
  revert Hnd Hlen.
  generalize (get_weather (http_weather w (geo_lat g) (geo_lon g) DEFAULT_FORECAST_DAYS))
             (get_tourist_places max_places
                (http_places w (geo_lat g) (geo_lon g) search_radius max_places))
             (chat_tips w place_name) (chat_itinerary w place_name)
             (chat_summary w user_input place_name (geo_display_name g)).
  intros weather_data places_data tips_of itinerary_of summary_of Hnd Hlen.
  assert (Hgeo' : exists g0, get_coordinates (py_float w) (http_geocoding w place_name)
                             = Some g0 /\ geo_display_name g = geo_display_name g0 /\
                             (geo_lat g, geo_lon g) = (geo_lat g0, geo_lon g0))
    by (exists g; auto).
  destruct places_data as [|p ps]; destruct (json_truthy weather_data) eqn:Hw;
    destruct hw, hg, hp, hi, ht;
    repeat (simpl; unfold weather_truthy, places_truthy; rewrite ?Hw);
    intros [= <- <- <- <- <- <-];
    repeat (simpl; unfold weather_truthy, places_truthy; rewrite ?Hw);
    (split; [exact Hpass|]); (split; [exact Hgeo'|]);
    (split; [intros j [= <-]; assumption || discriminate | ]);
    (split; [intros l [= <-]; (split; [discriminate|]); split; assumption | ]);
    split; intros [=]; auto.
Qed.

(** X15.  What a success bundle always holds: a place that is not empty,
    with the display name and the coordinates the geocoding gave for
    it; a [weather] entry only if it is true; a [places] entry only if
    it is a non-empty list of distinct names, of at most [max_places]
    places when that number is not negative; tips only beside true
    weather and places entries; an itinerary only beside a true places
    entry. *)
Theorem success_bundle_invariants (w : world) (user_input : string)
  (search_radius max_places : Z) :
  success (value (process_query w user_input search_radius max_places)) = true ->
  match value (process_query w user_input search_radius max_places) with
  | Failure _ _ => False
  | Success place display_name coordinates intents data summary =>
      Py.truthy place = true /\
      (exists g, get_coordinates (py_float w) (http_geocoding w place) = Some g /\
                 display_name = geo_display_name g /\
                 coordinates = (geo_lat g, geo_lon g)) /\
      (forall j, d_weather data = Some j -> json_truthy j = true) /\
      (forall ps, d_places data = Some ps ->
                  ps <> [] /\ NoDup (p_name <$> ps) /\
                  (0 <= max_places -> Z.of_nat (length ps) <= max_places)) /\
      (present (d_tips data) = true ->
       weather_truthy data = true /\ places_truthy data = true) /\
      (present (d_itinerary data) = true -> places_truthy data = true)
  end.
Proof.
  destruct (value (process_query w user_input search_radius max_places))
    as [|place display_name coordinates intents data summary] eqn:Hout;
    [discriminate|]. intros _.
  exact (process_query_success_data _ _ _ _ _ _ _ _ _ _ Hout).
Qed.

Lemma success_bundle_invariants_witness :
  match value (process_query bangalore_world "Plan my trip to bengalururu" 30000 2) with
  | Failure _ _ => False
  | Success place display_name coordinates intents data summary =>
      Py.truthy place = true /\
      (exists g, get_coordinates (py_float bangalore_world)
                   (http_geocoding bangalore_world place) = Some g /\
                 display_name = geo_display_name g /\
                 coordinates = (geo_lat g, geo_lon g)) /\
      (forall j, d_weather data = Some j -> json_truthy j = true) /\
      (forall ps, d_places data = Some ps ->
                  ps <> [] /\ NoDup (p_name <$> ps) /\
                  (0 <= 2 -> Z.of_nat (length ps) <= 2)) /\
      (present (d_tips data) = true ->
       weather_truthy data = true /\ places_truthy data = true) /\
      (present (d_itinerary data) = true -> places_truthy data = true)
  end.
Proof.
  apply (success_bundle_invariants bangalore_world "Plan my trip to bengalururu" 30000 2).
  reflexivity.
Defined.

(** ** Searching and splitting text *)

Lemma startswith_app (p s : string) : PyStr.startswith p (p ++ s) = true.
Proof.
  induction p as [|c p IH]; [reflexivity|].
  rewrite append_cons. simpl. rewrite bool_decide_eq_true_2 by reflexivity. exact IH.
Qed.

Lemma startswith_inv (p s : string) :
  PyStr.startswith p s = true -> exists r, s = p ++ r.
Proof.
  revert s. induction p as [|c p IH]; intros s H.
  - exists s. now rewrite append_nil_l.
  - destruct s as [|c' s]; [discriminate|]. simpl in H.
    apply andb_true_iff in H as [Hc H]. apply bool_decide_eq_true in Hc as ->.
    destruct (IH _ H) as [r ->]. exists r. now rewrite append_cons.
Qed.

Lemma isin_cons (sub : string) (c : ascii) (s : string) :
  PyStr.isin sub (String c s) = PyStr.startswith sub (String c s) || PyStr.isin sub s.
Proof. reflexivity. Qed.

Lemma isin_nil (sub : string) : PyStr.isin sub "" = PyStr.startswith sub "".
Proof. simpl. now rewrite orb_false_r. Qed.

Lemma isin_app (before sub after : string) : PyStr.isin sub (before ++ sub ++ after) = true.
Proof.
  induction before as [|c before IH].
  - rewrite append_nil_l. destruct (sub ++ after) eqn:E.
    + rewrite isin_nil, <- E. apply startswith_app.
    + rewrite isin_cons, <- E, startswith_app. reflexivity.
  - rewrite append_cons, isin_cons, IH. apply orb_true_r.
Qed.

(** The test [sub in s] finds what the statements call [Py.contains]. *)
Lemma isin_contains (sub s : string) : PyStr.isin sub s = true <-> Py.contains sub s.
Proof.
  split.
  - induction s as [|c s IH].
    + rewrite isin_nil. intros [r ->]%startswith_inv. exists "", r.
      now rewrite append_nil_l.
    + rewrite isin_cons. intros [H|H]%orb_true_iff.
      * apply startswith_inv in H as [r ->]. exists "", r. now rewrite append_nil_l.
      * destruct (IH H) as (a & b & ->). exists (String c a), b.
        now rewrite append_cons.
  - intros (a & b & ->). apply isin_app.
Qed.

Lemma split_from_cons0 (sep : string) (c : ascii) (s : string) :
  PyStr.split_from sep 0 (String c s)
  = if PyStr.startswith sep (String c s)
    then "" :: PyStr.split_from sep (Nat.pred (String.length sep)) s
    else PyStr.push c (PyStr.split_from sep 0 s).
Proof. reflexivity. Qed.

Lemma split_from_nonempty (sep : string) (skip : nat) (s : string) :
  PyStr.split_from sep skip s <> [].
Proof.
  revert skip. induction s as [|c s IH]; intros skip; [discriminate|].
  destruct skip as [|k]; [|apply IH].
  rewrite split_from_cons0. destruct (PyStr.startswith sep _); [discriminate|].
  specialize (IH 0%nat). destruct (PyStr.split_from sep 0 s); [contradiction|discriminate].
Qed.

Lemma split_from_skip (sep x rest : string) :
  PyStr.split_from sep (String.length x) (x ++ rest) = PyStr.split_from sep 0 rest.
Proof.
  induction x as [|c x IH]; [now rewrite append_nil_l|].
  rewrite append_cons. simpl. exact IH.
Qed.

Lemma split_from_match (c0 : ascii) (sep' rest : string) :
  PyStr.split_from (String c0 sep') 0 (String c0 sep' ++ rest)
  = "" :: PyStr.split_from (String c0 sep') 0 rest.
Proof.
  pose proof (startswith_app (String c0 sep') rest) as H.
  rewrite append_cons in *. rewrite split_from_cons0, H.
  simpl Nat.pred. now rewrite split_from_skip.
Qed.

Lemma startswith_other (c0 c : ascii) (sep' s : string) :
  negb (bool_decide (c = c0)) = true ->
  PyStr.startswith (String c0 sep') (String c s) = false.
Proof.
  intros H%negb_true_iff%bool_decide_eq_false. simpl.
  rewrite bool_decide_eq_false_2 by congruence. reflexivity.
Qed.

(** A separator that a text free of its first character precedes is
    met where it stands. *)
Lemma split_from_free (c0 : ascii) (sep' pre rest : string) :
  all_chars (fun c => negb (bool_decide (c = c0))) pre = true ->
  PyStr.split_from (String c0 sep') 0 (pre ++ String c0 sep' ++ rest)
  = pre :: PyStr.split_from (String c0 sep') 0 rest.
Proof.
  induction pre as [|c pre IH]; intros H.
  - rewrite append_nil_l. apply split_from_match.
  - simpl in H. apply andb_true_iff in H as [Hc H].
    rewrite append_cons, split_from_cons0, (startswith_other _ _ _ _ Hc), (IH H).
    reflexivity.
Qed.

Lemma first_piece_cons (sep : string) (c : ascii) (s : string) :
  first_piece sep (String c s)
  = if PyStr.startswith sep (String c s) then "" else String c (first_piece sep s).
Proof. reflexivity. Qed.

Lemma first_piece_hd (sep s : string) :
  exists l, PyStr.split_from sep 0 s = first_piece sep s :: l.
Proof.
  induction s as [|c s [l IH]]; [now exists []|].
  rewrite split_from_cons0, first_piece_cons.
  destruct (PyStr.startswith sep (String c s)); [eauto|].
  rewrite IH. now exists l.
Qed.

Lemma first_piece_match (c0 : ascii) (sep' rest : string) :
  first_piece (String c0 sep') (String c0 sep' ++ rest) = "".
Proof.
  pose proof (startswith_app (String c0 sep') rest) as H.
  rewrite append_cons in *. now rewrite first_piece_cons, H.
Qed.

Lemma first_piece_free (c0 : ascii) (sep' body rest : string) :
  all_chars (fun c => negb (bool_decide (c = c0))) body = true ->
  first_piece (String c0 sep') (body ++ rest)
  = body ++ first_piece (String c0 sep') rest.
Proof.
  induction body as [|c body IH]; intros H; [now rewrite !append_nil_l|].
  simpl in H. apply andb_true_iff in H as [Hc H].
  rewrite !append_cons, first_piece_cons.
  rewrite (startswith_other _ _ _ _ Hc), (IH H). reflexivity.
Qed.

Lemma first_piece_whole (c0 : ascii) (sep' body : string) :
  all_chars (fun c => negb (bool_decide (c = c0))) body = true ->
  first_piece (String c0 sep') body = body.
Proof.
  intros H. rewrite <- (append_nil_r body) at 1.
  rewrite (first_piece_free _ _ _ _ H). simpl. apply append_nil_r.
Qed.

Lemma split_sep_isin (c0 : ascii) (sep' s : string) :
  PyStr.isin (String c0 sep') s = true ->
  exists a b l, PyStr.split_sep (String c0 sep') s = a :: b :: l.
Proof.
  unfold PyStr.split_sep. induction s as [|c s IH]; [discriminate|].
  rewrite isin_cons, split_from_cons0.
  destruct (PyStr.startswith _ (String c s)).
  - intros _.
    destruct (PyStr.split_from (String c0 sep')
                (Nat.pred (String.length (String c0 sep'))) s) as [|b l] eqn:E;
      [now apply split_from_nonempty in E|]. eauto.
  - simpl orb. intros H. destruct (IH H) as (a & b & l & ->). simpl. eauto.
Qed.

Lemma split_sep_free (c0 : ascii) (sep' s : string) :
  all_chars (fun c => negb (bool_decide (c = c0))) s = true ->
  PyStr.split_sep (String c0 sep') s = [s].
Proof.
  unfold PyStr.split_sep. induction s as [|c s IH]; intros H; [reflexivity|].
  simpl in H. apply andb_true_iff in H as [Hc H].
  rewrite split_from_cons0, (startswith_other _ _ _ _ Hc), (IH H). reflexivity.
Qed.

Lemma isin_free (c0 : ascii) (sep' s : string) :
  all_chars (fun c => negb (bool_decide (c = c0))) s = true ->
  PyStr.isin (String c0 sep') s = false.
Proof.
  induction s as [|c s IH]; intros H; [reflexivity|].
  simpl in H. apply andb_true_iff in H as [Hc H].
  now rewrite isin_cons, (startswith_other _ _ _ _ Hc), (IH H).
Qed.

Lemma isin_char (c0 : ascii) (s : string) :
  all_chars (fun c => negb (bool_decide (c = c0))) s = false ->
  PyStr.isin (String c0 "") s = true.
Proof.
  induction s as [|c s IH]; [discriminate|].
  simpl all_chars. rewrite isin_cons. destruct (bool_decide (c = c0)) eqn:Hc.
  - intros _. apply bool_decide_eq_true in Hc as ->. simpl.
    now rewrite bool_decide_eq_true_2.
  - simpl. intros H. rewrite (IH H). apply orb_true_r.
Qed.

(** With a separator of one character, splitting goes piece by
    piece. *)
Lemma split_sep_char_app (c0 : ascii) (a b : string) :
  PyStr.split_sep (String c0 "") (a ++ String c0 b)
  = (PyStr.split_sep (String c0 "") a ++ PyStr.split_sep (String c0 "") b)%list.
Proof.
  unfold PyStr.split_sep. induction a as [|c a IH].
  - rewrite append_nil_l.
    change (String c0 b) with (String c0 "" ++ b). now rewrite split_from_match.
  - rewrite append_cons, !split_from_cons0.
    assert (Hs : forall t, PyStr.startswith (String c0 "") (String c t)
                           = bool_decide (c0 = c))
      by (intros t; simpl; apply andb_true_r).
    rewrite !Hs. destruct (bool_decide (c0 = c)); simpl Nat.pred.
    + now rewrite IH.
    + rewrite IH.
      pose proof (split_from_nonempty (String c0 "") 0 a) as Hne.
      destruct (PyStr.split_from _ 0 a); [contradiction|reflexivity].
Qed.

(** Lines that hold no line break come back from their joining. *)
Lemma split_join (c0 : ascii) (l : string) (ls : list string) :
  Forall (fun l => all_chars (fun c => negb (bool_decide (c = c0))) l = true) (l :: ls) ->
  PyStr.split_sep (String c0 "") (Py.join (String c0 "") (l :: ls)) = l :: ls.
Proof.
  revert l. induction ls as [|l' ls IH]; intros l H.
  - simpl. apply split_sep_free. now inversion H.
  - change (Py.join (String c0 "") (l :: l' :: ls))
      with (l ++ String c0 "" ++ Py.join (String c0 "") (l' :: ls)).
    rewrite append_cons, append_nil_l, split_sep_char_app.
    inversion H as [|? ? Hl Hls]; subst.
    now rewrite (split_sep_free _ _ _ Hl), (IH _ Hls).
Qed.

(** ** The reply out of its code fence *)

Lemma fence_first (sep s : string) :
  item 0 (PyStr.split_sep sep s) = Ok (first_piece sep s).
Proof.
  unfold PyStr.split_sep. destruct (first_piece_hd sep s) as [l ->]. reflexivity.
Qed.

Lemma fence_second (c0 : ascii) (sep' pre rest : string) :
  all_chars (fun c => negb (bool_decide (c = c0))) pre = true ->
  item 1 (PyStr.split_sep (String c0 sep') (pre ++ String c0 sep' ++ rest))
  = Ok (first_piece (String c0 sep') rest).
Proof.
  intros H. unfold PyStr.split_sep. rewrite (split_from_free _ _ _ _ H).
  destruct (first_piece_hd (String c0 sep') rest) as [l ->]. reflexivity.
Qed.

Lemma isin_fence (content : string) :
  PyStr.isin FENCE_JSON content = true -> PyStr.isin FENCE content = true.
Proof.
  rewrite !isin_contains. apply contains_trans. exists "", "json". reflexivity.
Qed.

(** X16.  The two indexings of the fence stripping never fail; a reply that
    holds a fence comes out with no blank at either end, a reply that
    holds none comes out as it is. *)
Theorem fenced_content_total (content : string) :
  match fenced_content content with
  | Ok s => if PyStr.isin FENCE content then trimmed Py.isspace s else s = content
  | Raise _ => False
  end.
Proof.
  unfold fenced_content.
  destruct (PyStr.isin FENCE_JSON content) eqn:Hjson.
  - rewrite (isin_fence _ Hjson).
    destruct (split_sep_isin _ _ _ Hjson) as (a & b & l & E).
    unfold FENCE_JSON. rewrite E. simpl. rewrite fence_first. simpl.
    apply strip_by_trimmed.
  - destruct (PyStr.isin FENCE content) eqn:Hfence; [|reflexivity].
    destruct (split_sep_isin _ _ _ Hfence) as (a & b & l & E).
    unfold FENCE. rewrite E. simpl. rewrite fence_first. simpl.
    apply strip_by_trimmed.
Qed.

Lemma first_piece_json (post : string) :
  PyStr.startswith "`" post = false ->
  first_piece FENCE_JSON (FENCE ++ post) = ""
  \/ exists r, first_piece FENCE_JSON (FENCE ++ post) = FENCE ++ r.
Proof.
  intros Hpost. unfold FENCE, FENCE_JSON.
  rewrite !append_cons, append_nil_l, first_piece_cons.
  destruct (PyStr.startswith "```json" (String "`" (String "`" (String "`" post))));
    [now left|right].
  assert (H2 : PyStr.startswith "```json" (String "`" (String "`" post)) = false).
  { destruct post as [|c post]; [reflexivity|]. simpl in *.
    rewrite andb_true_r in Hpost. rewrite Hpost.
    reflexivity. }
  assert (H1 : PyStr.startswith "```json" (String "`" post) = false).
  { destruct post as [|c post]; [reflexivity|]. simpl in *.
    rewrite andb_true_r in Hpost. rewrite Hpost.
    reflexivity. }
  rewrite first_piece_cons, H2, first_piece_cons, H1. eauto.
Qed.

Lemma bind_ok {A B : Type} (f : A -> result B) (x : A) : (Ok x ≫= f) = f x.
Proof. reflexivity. Qed.

Lemma json_inner (pre rest : string) :
  all_chars (fun c => negb (is_backtick c)) pre = true ->
  item 1 (PyStr.split_sep FENCE_JSON (pre ++ FENCE_JSON ++ rest))
  = Ok (first_piece FENCE_JSON rest).
Proof. exact (fence_second "`" "``json" pre rest). Qed.

Lemma fence_inner (pre rest : string) :
  all_chars (fun c => negb (is_backtick c)) pre = true ->
  item 1 (PyStr.split_sep FENCE (pre ++ FENCE ++ rest)) = Ok (first_piece FENCE rest).
Proof. exact (fence_second "`" "``" pre rest). Qed.

Lemma fence_body (body rest : string) :
  all_chars (fun c => negb (is_backtick c)) body = true ->
  first_piece FENCE (body ++ FENCE ++ rest) = body.
Proof.
  intros H. unfold FENCE.
  rewrite (first_piece_free "`" "``" body _ H), first_piece_match.
  apply append_nil_r.
Qed.

Lemma fence_whole (body : string) :
  all_chars (fun c => negb (is_backtick c)) body = true ->
  first_piece FENCE body = body /\ first_piece FENCE_JSON body = body.
Proof.
  intros H. split.
  - exact (first_piece_whole "`" "``" body H).
  - exact (first_piece_whole "`" "``json" body H).
Qed.

Lemma json_body (body post : string) :
  all_chars (fun c => negb (is_backtick c)) body = true ->
  PyStr.startswith "`" post = false ->
  first_piece FENCE (first_piece FENCE_JSON (body ++ FENCE ++ post)) = body.
Proof.
  intros Hbody Hpost.
  assert (E : first_piece FENCE_JSON (body ++ FENCE ++ post)
              = body ++ first_piece FENCE_JSON (FENCE ++ post))
    by exact (first_piece_free "`" "``json" body _ Hbody).
  rewrite E. destruct (first_piece_json post Hpost) as [->|[r ->]].
  - rewrite append_nil_r. now apply fence_whole.
  - now apply fence_body.
Qed.

(** X17.  A reply that carries its JSON in a [json] fence: with no backtick
    before the fence or in the fenced text, and none right after the
    closing fence, what is decoded is the fenced text without the
    blanks around it, whatever stands before and after the fences; and
    so it is when the fence is never closed. *)
Theorem fenced_json_unwrapped (pre body post : string) :
  all_chars (fun c => negb (is_backtick c)) pre = true ->
  all_chars (fun c => negb (is_backtick c)) body = true ->
  PyStr.startswith "`" post = false ->
  fenced_content (pre ++ FENCE_JSON ++ body ++ FENCE ++ post) = Ok (Py.strip body)
  /\ fenced_content (pre ++ FENCE_JSON ++ body) = Ok (Py.strip body).
Proof.
  intros Hpre Hbody Hpost. unfold fenced_content. rewrite !isin_app.
  rewrite !(json_inner pre _ Hpre), !bind_ok, !fence_first, !bind_ok.
  rewrite (json_body body post Hbody Hpost).
  destruct (fence_whole body Hbody) as [E1 E2]. rewrite E2, E1. now split.
Qed.

Lemma fenced_json_unwrapped_witness :
  fenced_content ("Here it is: ```json {} ``` Bye") = Ok "{}".
Proof.
  apply (fenced_json_unwrapped "Here it is: " " {} " " Bye"); reflexivity.
Defined.

(** X18.  A reply that carries its JSON in a fence without the word [json]:
    with no backtick before the fence or in the fenced text, what is
    decoded is the fenced text without the blanks around it. *)
Theorem plain_fence_unwrapped (pre body post : string) :
  all_chars (fun c => negb (is_backtick c)) pre = true ->
  all_chars (fun c => negb (is_backtick c)) body = true ->
  PyStr.isin FENCE_JSON (pre ++ FENCE ++ body ++ FENCE ++ post) = false ->
  fenced_content (pre ++ FENCE ++ body ++ FENCE ++ post) = Ok (Py.strip body).
Proof.
  intros Hpre Hbody Hjson. unfold fenced_content. rewrite Hjson, isin_app.
  rewrite (fence_inner pre _ Hpre), bind_ok, fence_first, bind_ok.
  rewrite (fence_body body post Hbody).
  destruct (fence_whole body Hbody) as [E1 _]. now rewrite E1.
Qed.

Lemma plain_fence_unwrapped_witness :
  fenced_content ("``` {} ``` json") = Ok "{}".
Proof.
  apply (plain_fence_unwrapped "" " {} " " json"); reflexivity.
Defined.

(** ** The day headings of an itinerary *)

(** X19.  [days] is the number of lines that begin, after the blanks, with
    the heading mark: for lines that hold no line break, joined by
    line breaks into the itinerary, the lines that are day headings
    are counted, each once. *)
Theorem itinerary_days_lines (lines : list string) :
  Forall (fun line => all_chars (fun c => negb (is_newline c)) line = true) lines ->
  itinerary_days (Py.join Py.newline lines)
  = length (List.filter is_day_heading lines).
Proof.
  intros H. unfold itinerary_days. destruct lines as [|l ls]; [reflexivity|].
  unfold Py.newline. now rewrite (split_join (ascii_of_nat 10) l ls H).
Qed.

Lemma itinerary_days_lines_witness :
  itinerary_days ("**Day 1: Louvre" ++ Py.newline ++ "- lunch" ++ Py.newline
                  ++ "  **Day 2: Versailles") = 2%nat.
Proof.
  apply (itinerary_days_lines ["**Day 1: Louvre"; "- lunch"; "  **Day 2: Versailles"]).
  repeat constructor.
Defined.

(** ** The link to the encyclopedia *)

Lemma wikipedia_link_raise (wikipedia : string) (e : exn) :
  wikipedia_link wikipedia = Raise e
  <-> e = OtherException /\ Py.truthy wikipedia = true
      /\ all_chars (fun c => negb (is_colon c)) wikipedia = true.
Proof.
  unfold wikipedia_link, wiki_url.
  destruct (Py.truthy wikipedia); [|split; [discriminate|intros (_ & ? & _); discriminate]].
  split.
  - destruct (all_chars _ wikipedia) eqn:H.
    + rewrite (split_sep_free ":" "" wikipedia H). simpl. intros [= <-]. auto.
    + apply (isin_char ":") in H.
      destruct (split_sep_isin ":" "" _ H) as (a & b & l & ->). discriminate.
  - intros (-> & _ & H). now rewrite (split_sep_free ":" "" wikipedia H).
Qed.

(** X20.  The link of a place fails with [IndexError] exactly when the
    place has a [wikipedia] entry, not empty, that holds no colon; for
    a place with the empty entry, the default, no link is built and
    nothing fails. *)
Theorem wiki_url_needs_colon (wikipedia : string) :
  (wikipedia_link wikipedia = Raise OtherException
   <-> Py.truthy wikipedia = true
       /\ all_chars (fun c => negb (is_colon c)) wikipedia = true)
  /\ wikipedia_link "" = Ok None.
Proof.
  split; [|reflexivity]. rewrite wikipedia_link_raise. intuition.
Qed.

(** X21.  For an entry made of a language, a colon and a title, the link
    leads to the title; a title that itself holds a colon is cut
    there. *)
Theorem wiki_url_title (lang title : string) :
  all_chars (fun c => negb (is_colon c)) lang = true ->
  all_chars (fun c => negb (is_colon c)) title = true ->
  wiki_url (lang ++ ":" ++ title) = Ok (WIKI ++ title)
  /\ forall more, wiki_url (lang ++ ":" ++ title ++ ":" ++ more) = Ok (WIKI ++ title).
Proof.
  intros Hlang Htitle. unfold wiki_url. split; [|intros more].
  - rewrite (fence_second ":" "" lang title Hlang), bind_ok.
    now rewrite (first_piece_whole ":" "" title Htitle).
  - rewrite (fence_second ":" "" lang _ Hlang), bind_ok.
    rewrite (first_piece_free ":" "" title _ Htitle), first_piece_match.
    now rewrite append_nil_r.
Qed.

Lemma wiki_url_title_witness :
  wiki_url "fr:Tour Eiffel" = Ok "https://en.wikipedia.org/wiki/Tour Eiffel"
  /\ wiki_url "en:Paris: A History" = Ok "https://en.wikipedia.org/wiki/Paris".
Proof.
  split.
  - apply (wiki_url_title "fr" "Tour Eiffel"); reflexivity.
  - apply (wiki_url_title "en" "Paris" eq_refl eq_refl).
Defined.

(** ** The places the summary names *)

Lemma filter_sublist {A : Type} (f : A -> bool) (l : list A) :
  List.filter f l `sublist_of` l.
Proof.
  induction l as [|x l IH]; [constructor|]. simpl.
  destruct (f x); now constructor.
Qed.

Lemma elem_of_filter {A : Type} (f : A -> bool) (l : list A) (x : A) :
  x ∈ List.filter f l <-> x ∈ l /\ f x = true.
Proof. rewrite !list_elem_of_In. apply List.filter_In. Qed.

(** The loop gathers the names of the listed attractions and of the
    listed places, each in the order of the places. *)
Lemma scan_places_spec (places : list place) (actual_attractions all_place_names : list string) :
  scan_places places actual_attractions all_place_names
  = ((actual_attractions
      ++ (p_name <$> List.filter (fun p => listed p && is_attraction p) places))%list,
     (all_place_names ++ (p_name <$> List.filter listed places))%list).
Proof.
  revert actual_attractions all_place_names.
  induction places as [|p places IH]; intros A B.
  - simpl. now rewrite !app_nil_r.
  - assert (El : listed p
                 = negb (negb (Py.truthy (p_name p)) || bool_decide (p_name p = "Unknown"))
                   && negb (should_exclude (p_name p))).
    { unfold listed. now destruct (Py.truthy _), (bool_decide _). }
    cbn [scan_places List.filter]. rewrite !IH, El.
    destruct (negb (Py.truthy (p_name p)) || bool_decide (p_name p = "Unknown"));
      [reflexivity|].
    destruct (should_exclude (p_name p)); simpl; [now rewrite andb_false_r|].
    rewrite andb_true_r. destruct (is_attraction p); simpl; now rewrite <- ?app_assoc.
Qed.

Lemma should_exclude_false (name k : string) :
  should_exclude name = false -> k ∈ EXCLUDE_KEYWORDS ->
  ~ Py.contains k (Py.lower name).
Proof.
  unfold should_exclude. intros H Hk Hin%isin_contains.
  assert (existsb (fun exclude => PyStr.isin exclude (Py.lower name)) EXCLUDE_KEYWORDS
          = true); [|congruence].
  apply existsb_exists. exists k. split; [now apply list_elem_of_In|assumption].
Qed.

Lemma listed_name (p : place) :
  listed p = true ->
  p_name p <> "" /\ p_name p <> "Unknown"
  /\ forall k, k ∈ EXCLUDE_KEYWORDS -> ~ Py.contains k (Py.lower (p_name p)).
Proof.
  unfold listed.
  intros [[Hn Hu%negb_true_iff%bool_decide_eq_false]%andb_true_iff
          He%negb_true_iff]%andb_true_iff.
  repeat split; [|assumption|intros k; now apply should_exclude_false].
  intros E. now rewrite E in Hn.
Qed.

(** What [take 3] of the names of a choice among the places is. *)
Lemma take_names (f : place -> bool) (places : list place) :
  let names := take 3 (p_name <$> List.filter f places) in
  (length names <= 3)%nat
  /\ names `sublist_of` (p_name <$> places)
  /\ forall name, name ∈ names -> exists p, p ∈ places /\ p_name p = name /\ f p = true.
Proof.
  simpl. repeat split.
  - rewrite length_take. lia.
  - etrans; [apply sublist_take|]. apply fmap_sublist, filter_sublist.
  - intros name Hin.
    pose proof (elem_of_sublist _ _ _ Hin (sublist_take _ 3)) as Hin'.
    apply list_elem_of_fmap in Hin' as (p & -> & Hp). apply elem_of_filter in Hp as [? ?].
    eauto.
Qed.

(** X22.  The names in the prompt: never more than three, names of places
    in the order of the places; each is a name, other than the word
    for none, that holds none of the excluded words; and there is one
    as soon as a place has such a name. *)
Theorem sample_places_sound (places : list place) :
  (length (sample_places places) <= 3)%nat
  /\ sample_places places `sublist_of` (p_name <$> places)
  /\ (forall name, name ∈ sample_places places ->
       name <> "" /\ name <> "Unknown"
       /\ forall k, k ∈ EXCLUDE_KEYWORDS -> ~ Py.contains k (Py.lower name))
  /\ (sample_places places <> [] <-> exists p, p ∈ places /\ listed p = true).
Proof.
  unfold sample_places. rewrite scan_places_spec. simpl.
  pose proof (take_names (fun p => listed p && is_attraction p) places) as Ha.
  pose proof (take_names listed places) as Hl. simpl in Ha, Hl.
  destruct (p_name <$> List.filter (fun p => listed p && is_attraction p) places)
    as [|a attractions] eqn:Ea.
  - destruct (p_name <$> List.filter listed places) as [|b names] eqn:Eb.
    + split; [simpl; lia|]. split; [apply sublist_nil_l|].
      split; [intros name H; inversion H|]. split.
      * intros H. now contradiction H.
      * intros (p & Hp & Hlisted) _.
        assert (p_name p ∈ p_name <$> List.filter listed places) as Hin
            by (apply list_elem_of_fmap_2, elem_of_filter; auto).
        rewrite Eb in Hin. inversion Hin.
    + destruct Hl as (Hlen & Hsub & Hin). split; [exact Hlen|]. split; [exact Hsub|].
      split.
      * intros name (p & _ & <- & Hp)%Hin. now apply listed_name.
      * split; [|discriminate]. intros _.
        destruct (Hin b) as (p & Hp & _ & Hlisted); [left|]. eauto.
  - destruct Ha as (Hlen & Hsub & Hin). split; [exact Hlen|]. split; [exact Hsub|].
    split.
    + intros name (p & _ & <- & [Hp _]%andb_true_iff)%Hin. now apply listed_name.
    + split; [|discriminate]. intros _.
      destruct (Hin a) as (p & Hp & _ & [Hlisted _]%andb_true_iff); [left|]. eauto.
Qed.

(** X23.  As soon as one listed place is an attraction, by a word of its
    name, by its type or by a tag, the prompt names attractions
    only. *)
Theorem attractions_preferred (places : list place) :
  (exists p, p ∈ places /\ listed p = true /\ is_attraction p = true) ->
  sample_places places <> []
  /\ forall name, name ∈ sample_places places ->
       exists p, p ∈ places /\ p_name p = name /\ listed p = true
                 /\ is_attraction p = true.
Proof.
  intros (p0 & Hp0 & Hl0 & Ha0). unfold sample_places. rewrite scan_places_spec. simpl.
  pose proof (take_names (fun p => listed p && is_attraction p) places) as (_ & _ & Hin).
  assert (p_name p0 ∈ p_name <$> List.filter (fun p => listed p && is_attraction p) places)
    as Hne.
  { apply list_elem_of_fmap_2, elem_of_filter. split; [assumption|].
    now rewrite Hl0, Ha0. }
  destruct (p_name <$> List.filter (fun p => listed p && is_attraction p) places)
    as [|a attractions]; [inversion Hne|].
  split; [discriminate|].
  intros name (p & Hp & <- & [? ?]%andb_true_iff)%Hin. eauto 6.
Qed.

Lemma attractions_preferred_witness :
  sample_places [cafe_bleu; the_louvre] <> []
  /\ forall name, name ∈ sample_places [cafe_bleu; the_louvre] ->
       exists p, p ∈ [cafe_bleu; the_louvre] /\ p_name p = name /\ listed p = true
                 /\ is_attraction p = true.
Proof.
  apply (attractions_preferred [cafe_bleu; the_louvre]).
  exists the_louvre. split; [|split; vm_compute; reflexivity].
  apply elem_of_cons. right. apply elem_of_cons. now left.
Defined.

(** ** The map and the tabs *)






Lemma tabs_elem (d : data_map) :
  (WeatherTab ∈ tabs d <-> weather_truthy d = true)
  /\ (PlacesTab ∈ tabs d <-> places_truthy d = true)
  /\ (ItineraryTab ∈ tabs d <-> Py.truthy_opt (d_itinerary d) = true)
  /\ (TipsTab ∈ tabs d <-> Py.truthy_opt (d_tips d) = true).
Proof.
  unfold tabs.
  destruct (weather_truthy d), (places_truthy d), (Py.truthy_opt (d_itinerary d)),
    (Py.truthy_opt (d_tips d)); simpl;
    rewrite ?elem_of_cons, ?elem_of_nil; intuition congruence.
Qed.

(** X25.  The tabs of a success bundle: the weather and the places are
    shown whenever the bundle holds them; the travel tips are never
    shown without the weather and the places, nor the itinerary
    without the places. *)
Theorem tabs_of_success_bundle (w : world) (user_input : string)
  (search_radius max_places : Z) :
  success (value (process_query w user_input search_radius max_places)) = true ->
  let data := bundle_data (value (process_query w user_input search_radius max_places)) in
  (WeatherTab ∈ tabs data <-> "weather" ∈ data_keys data)
  /\ (PlacesTab ∈ tabs data <-> "places" ∈ data_keys data)
  /\ (TipsTab ∈ tabs data -> WeatherTab ∈ tabs data /\ PlacesTab ∈ tabs data)
  /\ (ItineraryTab ∈ tabs data -> PlacesTab ∈ tabs data).
Proof.
  destruct (value (process_query w user_input search_radius max_places))
    as [|place display_name coordinates intents data summary] eqn:Hout;
    [discriminate|]. intros _. simpl.
  destruct (process_query_success_data _ _ _ _ _ _ _ _ _ _ Hout)
    as (_ & _ & Hweather & Hplaces & Htips & Hitinerary).
  destruct (tabs_elem data) as (Tw & Tp & Ti & Tt).
  rewrite Tw, Tp, Ti, Tt. clear Tw Tp Ti Tt.
  unfold data_keys, weather_truthy, places_truthy in *.
  destruct data as [[j|] [ps|] [t|] [i|]]; simpl in *;
    try specialize (Hweather _ eq_refl); try specialize (Hplaces _ eq_refl);
    try (destruct Hplaces as [Hne _]; destruct ps; [contradiction|]);
    rewrite ?Hweather, ?elem_of_cons, ?elem_of_nil;
    repeat split; intros; try tauto; try congruence;
    try (destruct Htips; auto; congruence); try (apply Hitinerary; auto);
    intuition congruence.
Qed.

Lemma tabs_of_success_bundle_witness :
  tabs (bundle_data (value (process_query bangalore_world "Plan my trip to bengalururu"
                              30000 2)))
  = [PlacesTab; ItineraryTab]
  /\ (PlacesTab ∈ tabs (bundle_data (value (process_query bangalore_world
                                              "Plan my trip to bengalururu" 30000 2)))
      <-> "places" ∈ data_keys (bundle_data (value (process_query bangalore_world
                                              "Plan my trip to bengalururu" 30000 2)))).
Proof.
  split; [reflexivity|].
  apply (tabs_of_success_bundle bangalore_world "Plan my trip to bengalururu" 30000 2).
  reflexivity.
Defined.
